(** * dnsintel: DNS-over-HTTPS lookup, attack-surface heuristic,
      infrastructure graph and lookup history

    A shallow embedding of the TypeScript sources

      - [lib/dns.ts]                      ([lookupDNS], [analyzeAttackSurface]),
      - [components/InfrastructureGraph]  (the graph built in [handleAnalyze]),
      - [components/DNSLookupTool]        ([saveHistory], [clearHistory]),

    followed by the properties proved about them.

    Conventions.  JavaScript strings are modelled by [string], holding the
    bytes of the UTF-8 form of the text (the literals the code compares
    against are ASCII).  JavaScript numbers that the code only uses as small
    integers (status codes, TTLs, the risk score) are modelled by [Z]; the
    number that [parseInt] makes of upstream text is modelled as the double
    it is ([JS.Number]).  [undefined] is [None].  The network
    is an oracle from requests to outcomes; every request that a lookup sends
    is recorded, so that statements about which endpoints were contacted can
    be made.  Wall-clock fields ([responseTime], [timestamp] of a lookup
    result) are not part of the model. *)

From Stdlib Require Import String Ascii List ZArith Bool Lia.
From Stdlib Require Import DecimalString.
From Stdlib Require DecimalPos.
Import ListNotations.

Open Scope string_scope.
Open Scope Z_scope.
Open Scope list_scope.

(* ================================================================== *)
(** ** JavaScript string primitives used by the sources *)
(* ================================================================== *)

Module JS.

(** [s.startsWith(p)]. *)
Definition startsWith (s p : string) : bool := String.prefix p s.

(** [s.includes(p)]: [p] occurs somewhere in [s]. *)
Fixpoint includes (s p : string) : bool :=
  String.prefix p s ||
  match s with
  | EmptyString => false
  | String _ s' => includes s' p
  end.

(** [xs.join(sep)]. *)
Definition join (sep : string) (xs : list string) : string :=
  String.concat sep xs.

(** [`${n}`] for an integral number [n]. *)
Definition numberToString (n : Z) : string :=
  NilZero.string_of_int (Z.to_int n).

(** [s.split(' ')[0]]: the part of [s] before its first space. *)
Fixpoint firstField (s : string) : string :=
  match s with
  | EmptyString => EmptyString
  | String c s' => if Ascii.eqb c " " then EmptyString else String c (firstField s')
  end.

(** White space and line terminators that [parseInt] skips before the
    number: the ASCII ones (tab, line feed, vertical tab, form feed, carriage
    return, space), *)
Definition isWhiteSpace (c : ascii) : bool :=
  let n := nat_of_ascii c in
  (Nat.eqb n 9 || Nat.eqb n 10 || Nat.eqb n 11 || Nat.eqb n 12
   || Nat.eqb n 13 || Nat.eqb n 32)%bool.

(** the no-break space U+00A0 (bytes C2 A0), *)
Definition isWhiteSpace2 (c1 c2 : ascii) : bool :=
  (Nat.eqb (nat_of_ascii c1) 194 && Nat.eqb (nat_of_ascii c2) 160)%bool.

(** and U+1680 (E1 9A 80), U+2000 to U+200A (E2 80 80 to E2 80 8A), the line
    and paragraph separators U+2028 and U+2029 (E2 80 A8, E2 80 A9), U+202F
    (E2 80 AF), U+205F (E2 81 9F), U+3000 (E3 80 80) and the byte order mark
    U+FEFF (EF BB BF). *)
Definition isWhiteSpace3 (c1 c2 c3 : ascii) : bool :=
  let a := nat_of_ascii c1 in
  let b := nat_of_ascii c2 in
  let c := nat_of_ascii c3 in
  (Nat.eqb a 225 && Nat.eqb b 154 && Nat.eqb c 128
   || Nat.eqb a 226 && Nat.eqb b 128
      && (Nat.leb 128 c && Nat.leb c 138
          || Nat.eqb c 168 || Nat.eqb c 169 || Nat.eqb c 175)
   || Nat.eqb a 226 && Nat.eqb b 129 && Nat.eqb c 159
   || Nat.eqb a 227 && Nat.eqb b 128 && Nat.eqb c 128
   || Nat.eqb a 239 && Nat.eqb b 187 && Nat.eqb c 191)%bool.

(** The first byte of a white space character of more than one byte. *)
Definition startsWhiteSpace (c : ascii) : bool :=
  let n := nat_of_ascii c in
  (Nat.eqb n 194 || Nat.eqb n 225 || Nat.eqb n 226 || Nat.eqb n 227
   || Nat.eqb n 239)%bool.

(** [TrimString(s, start)]. *)
Fixpoint trimStart (s : string) : string :=
  match s with
  | EmptyString => EmptyString
  | String c1 s1 =>
      if isWhiteSpace c1 then trimStart s1
      else if negb (startsWhiteSpace c1) then s
      else
        match s1 with
        | EmptyString => s
        | String c2 s2 =>
            if isWhiteSpace2 c1 c2 then trimStart s2
            else
              match s2 with
              | EmptyString => s
              | String c3 s3 =>
                  if isWhiteSpace3 c1 c2 c3 then trimStart s3 else s
              end
        end
  end.

Definition digitValue (c : ascii) : option Z :=
  let n := Z.of_nat (nat_of_ascii c) in
  if (48 <=? n) && (n <=? 57) then Some (n - 48)
  else if (97 <=? n) && (n <=? 122) then Some (n - 87)
  else if (65 <=? n) && (n <=? 90) then Some (n - 55)
  else None.

(** The longest prefix of [s] made of digits of the radix, as a number;
    [acc] is [None] until a first digit has been read. *)
Fixpoint readDigits (radix : Z) (s : string) (acc : option Z) : option Z :=
  match s with
  | EmptyString => acc
  | String c s' =>
      match digitValue c with
      | Some d =>
          if d <? radix
          then readDigits radix s'
                 (Some (radix * match acc with Some a => a | None => 0 end + d))
          else acc
      | None => acc
      end
  end.

(** A number as [parseInt] can return it: [NaN], the negative zero, a double
    whose value is the integer [z], or an infinity. *)
Inductive Number := NaN | NegZero | Int (z : Z) | Infinity (negative : bool).

(** The double of an integer: the integer itself below 2^53, otherwise the
    nearest number with 53 significant bits, a tie going to the even
    significand, and an infinity from 2^1024 on. *)
Definition toDouble (z : Z) : Number :=
  let m := Z.abs z in
  if m <? 2 ^ 53 then Int z
  else
    let e := Z.log2 m - 52 in
    let q := Z.shiftr m e in
    let r := m - Z.shiftl q e in
    let half := Z.shiftl 1 (e - 1) in
    let q' := if (half <? r) || ((r =? half) && Z.odd q) then q + 1 else q in
    let v := Z.shiftl q' e in
    if 2 ^ 1024 <=? v then Infinity (z <? 0)
    else Int (if z <? 0 then - v else v).

(** [parseInt(s)] with no radix argument: white space is skipped, then a
    sign, then [0x] or [0X] selects radix 16; the digits that follow are read
    as an integer, and the result is the double of that integer.  (For more
    than 20 significant decimal digits the language leaves the engine a
    choice; the correctly rounded result, which the engines give, is taken.) *)
Definition parseInt (s : string) : Number :=
  let s1 := trimStart s in
  let '(negative, s2) :=
    match s1 with
    | String "-" r => (true, r)
    | String "+" r => (false, r)
    | _ => (false, s1)
    end in
  let '(radix, s3) :=
    match s2 with
    | String "0" (String "x" r) => (16, r)
    | String "0" (String "X" r) => (16, r)
    | _ => (10, s2)
    end in
  match readDigits radix s3 None with
  | Some n =>
      if negative then (if n =? 0 then NegZero else toDouble (- n))
      else toDouble n
  | None => NaN
  end.

(** A digit string without its trailing zeros. *)
Fixpoint stripZeros (s : string) : string :=
  match s with
  | EmptyString => EmptyString
  | String c s' =>
      match stripZeros s' with
      | EmptyString => if Ascii.eqb c "0" then EmptyString else String c EmptyString
      | t => String c t
      end
  end.

(** The integer with the fewest significant decimal digits whose double is
    [m]: digits are added one at a time, from [p] trailing zeros down, until
    the multiple of [10^p] below [m] or the one above it has the double [m];
    of two that have, the one nearer to [m] is taken, the one with the even
    last digit on a tie. *)
Fixpoint shortest (fuel : nat) (p : Z) (m : Z) : Z :=
  match fuel with
  | O => m
  | S fuel' =>
      let unit := 10 ^ p in
      let low := (m / unit) * unit in
      let high := low + unit in
      let fits c := match toDouble c with Int v => v =? m | _ => false end in
      if fits low && fits high
      then (if m - low <? high - m then low
            else if high - m <? m - low then high
            else if Z.even (m / unit) then low else high)
      else if fits low then low
      else if fits high then high
      else if p <=? 0 then m
      else shortest fuel' (p - 1) m
  end.

(** [`${x}`] for a double [m >= 0] with an integer value: the decimal digits
    below 2^53; from there on the fewest digits that still denote [m], filled
    up with zeros while that makes at most 21 digits, and in exponent form
    otherwise. *)
Definition integerText (m : Z) : string :=
  if m <? 2 ^ 53 then numberToString m
  else
    let n := Z.of_nat (String.length (numberToString m)) in
    let digits := numberToString (shortest 20 (n - 1) m) in
    let len := Z.of_nat (String.length digits) in
    if len <=? 21 then digits
    else
      match stripZeros digits with
      | EmptyString => digits
      | String d EmptyString =>
          (String d "e+" ++ numberToString (len - 1))%string
      | String d rest =>
          (String d (String "." rest) ++ "e+" ++ numberToString (len - 1))%string
      end.

(** [`${x}`] for a number. *)
Definition numberText (x : Number) : string :=
  match x with
  | NaN => "NaN"
  | NegZero => "0"
  | Int z => if z <? 0 then (String "-" (integerText (- z))) else integerText z
  | Infinity false => "Infinity"
  | Infinity true => "-Infinity"
  end.

(** [s.toLowerCase()] on ASCII letters. *)
Definition lowerChar (c : ascii) : ascii :=
  let n := nat_of_ascii c in
  if (Nat.leb 65 n && Nat.leb n 90)%bool then ascii_of_nat (n + 32) else c.

Fixpoint toLowerCase (s : string) : string :=
  match s with
  | EmptyString => EmptyString
  | String c s' => String (lowerChar c) (toLowerCase s')
  end.

End JS.

(* ================================================================== *)
(** ** lib/dns.ts *)
(* ================================================================== *)

Module Dns.

Inductive RecordType := A | AAAA | MX | TXT | CNAME | NS | SOA | PTR | SRV.

Definition RecordType_eqb (x y : RecordType) : bool :=
  match x, y with
  | A, A | AAAA, AAAA | MX, MX | TXT, TXT | CNAME, CNAME
  | NS, NS | SOA, SOA | PTR, PTR | SRV, SRV => true
  | _, _ => false
  end.

(** [interface DNSRecord].  [priority] is [None] for [undefined]. *)
Record DNSRecord := {
  type : string;
  name : string;
  value : string;
  ttl : Z;
  priority : option JS.Number
}.

(** [interface DNSLookupResult], without its two wall-clock fields. *)
Record DNSLookupResult := {
  domain : string;
  recordType : RecordType;
  records : list DNSRecord;
  error : option string
}.

Inductive Severity := critical | high | medium | low.

(** [interface AttackSurfaceIssue]. *)
Record AttackSurfaceIssue := {
  id : string;
  severity : Severity;
  category : string;
  title : string;
  description : string;
  recommendation : string
}.

(** The members of [AttackSurfaceResult.checks]. *)
Record EmailCheck := {
  present : bool;
  valid : bool;
  record : option string
}.

Record DnssecCheck := {
  dnssec_present : bool;
  signed : bool
}.

Record RecordsCheck := {
  rs_present : bool;
  rs_records : list string
}.

Record Checks := {
  spf : EmailCheck;
  dmarc : EmailCheck;
  dnssec : DnssecCheck;
  mx : RecordsCheck;
  ns : RecordsCheck
}.

(** [interface AttackSurfaceResult]. *)
Record AttackSurfaceResult := {
  asr_domain : string;
  riskScore : Z;
  issues : list AttackSurfaceIssue;
  checks : Checks
}.

(** *** The network *)

(** One element of the [Answer] array of a DNS-over-HTTPS JSON response. *)
Record DNSAnswer := {
  ans_name : string;
  ans_type : Z;
  ans_TTL : Z;
  ans_data : string
}.

(** The JSON body, as far as the code reads it: [data.Status] and
    [data.Answer] ([None] when the member is missing). *)
Record DoHData := {
  Status : Z;
  Answer : option (list DNSAnswer)
}.

(** What [response.json()] does. *)
Inductive Body :=
| BadJson (thrown : string)
| Json (data : DoHData).

(** What [fetch] does: it rejects (the string is the rendering [`${error}`]
    of what was thrown), or it resolves to a response with an HTTP status. *)
Inductive FetchOutcome :=
| Rejected (thrown : string)
| Response (status : Z) (body : Body).

(** The request [`${server}?${params}`] with [params] holding [name] and
    [type]. *)
Record Request := {
  req_server : string;
  req_name : string;
  req_type : Z
}.

Definition Fetch := Request -> FetchOutcome.

(** [response.ok]. *)
Definition ok (status : Z) : bool := (200 <=? status) && (status <=? 299).

Definition DNS_OVER_HTTPS_SERVERS : list string :=
  [ "https://dns.google/resolve";
    "https://cloudflare-dns.com/dns-query" ].

Definition typeCode (t : RecordType) : Z :=
  match t with
  | A => 1
  | AAAA => 28
  | MX => 15
  | TXT => 16
  | CNAME => 5
  | NS => 2
  | SOA => 6
  | PTR => 12
  | SRV => 33
  end.

(** The callback of [data.Answer.map] in [lookupDNS]. *)
Definition toRecord (answer : DNSAnswer) : DNSRecord :=
  {| type :=
       if ans_type answer =? 1 then "A" else if ans_type answer =? 28 then "AAAA" else
       if ans_type answer =? 15 then "MX" else if ans_type answer =? 16 then "TXT" else
       if ans_type answer =? 5 then "CNAME" else if ans_type answer =? 2 then "NS" else
       if ans_type answer =? 6 then "SOA" else if ans_type answer =? 12 then "PTR" else
       if ans_type answer =? 33 then "SRV" else "UNKNOWN";
     name := ans_name answer;
     value := ans_data answer;
     ttl := ans_TTL answer;
     priority :=
       if ans_type answer =? 15
       then Some (JS.parseInt (JS.firstField (ans_data answer)))
       else None |}.

(** The [for (const server of ...)] loop of [lookupDNS], over the servers
    still to try.  [errors] is the array of that name; [sent] lists the
    requests fetched so far, oldest first.  The result comes with the
    requests that were sent. *)
Fixpoint lookupLoop (fetch : Fetch) (domain : string) (recordType : RecordType)
    (servers : list string) (errors : list string) (sent : list Request)
    : DNSLookupResult * list Request :=
  match servers with
  | [] =>
      ({| domain := domain;
          recordType := recordType;
          records := [];
          error := Some ("All DNS servers failed: " ++ JS.join ", " errors)%string |},
       sent)
  | server :: rest =>
      let request :=
        {| req_server := server; req_name := domain;
           req_type := typeCode recordType |} in
      let sent := sent ++ [request] in
      match fetch request with
      | Rejected thrown =>
          lookupLoop fetch domain recordType rest
            (errors ++ [("Server " ++ server ++ " failed: " ++ thrown)%string]) sent
      | Response status body =>
          if negb (ok status) then
            lookupLoop fetch domain recordType rest
              (errors ++ [("Server " ++ server ++ " returned "
                             ++ JS.numberToString status)%string]) sent
          else
            match body with
            | BadJson thrown =>
                lookupLoop fetch domain recordType rest
                  (errors ++ [("Server " ++ server ++ " failed: " ++ thrown)%string]) sent
            | Json data =>
                match Status data =? 0, Answer data with
                | true, Some answers =>
                    ({| domain := domain;
                        recordType := recordType;
                        records := map toRecord answers;
                        error := None |},
                     sent)
                | _, _ =>
                    if Status data =? 3 then
                      ({| domain := domain;
                          recordType := recordType;
                          records := [];
                          error := Some "NXDOMAIN - Domain does not exist" |},
                       sent)
                    else
                      lookupLoop fetch domain recordType rest errors sent
                end
            end
      end
  end.

(** [lookupDNS(domain, recordType)] together with the requests it sent. *)
Definition lookupDNS_sent (fetch : Fetch) (domain : string)
    (recordType : RecordType) : DNSLookupResult * list Request :=
  lookupLoop fetch domain recordType DNS_OVER_HTTPS_SERVERS [] [].

(** [lookupDNS(domain, recordType)]. *)
Definition lookupDNS (fetch : Fetch) (domain : string)
    (recordType : RecordType) : DNSLookupResult :=
  fst (lookupDNS_sent fetch domain recordType).

(** *** analyzeAttackSurface *)

(** The issue objects pushed by [analyzeAttackSurface]. *)
Definition spf_missing : AttackSurfaceIssue :=
  {| id := "spf-missing";
     severity := high;
     category := "Email Security";
     title := "SPF Record Missing";
     description := "No SPF record found for domain. This could allow email spoofing.";
     recommendation := "Add an SPF record to specify authorized mail servers." |}.

Definition spf_invalid : AttackSurfaceIssue :=
  {| id := "spf-invalid";
     severity := medium;
     category := "Email Security";
     title := "SPF Record Invalid";
     description := "SPF record exists but may be misconfigured.";
     recommendation := "Review SPF syntax and ensure it covers all authorized servers." |}.

Definition dmarc_missing : AttackSurfaceIssue :=
  {| id := "dmarc-missing";
     severity := high;
     category := "Email Security";
     title := "DMARC Record Missing";
     description := "No DMARC record found. This leaves domain vulnerable to email spoofing.";
     recommendation := "Implement DMARC policy to protect your domain from email spoofing." |}.

Definition dmarc_invalid : AttackSurfaceIssue :=
  {| id := "dmarc-invalid";
     severity := medium;
     category := "Email Security";
     title := "DMARC Record Invalid";
     description := "DMARC record exists but may be misconfigured.";
     recommendation := "Review DMARC policy syntax and alignment settings." |}.

Definition dnssec_missing : AttackSurfaceIssue :=
  {| id := "dnssec-missing";
     severity := low;
     category := "DNSSEC";
     title := "DNSSEC Not Configured";
     description := "Domain does not appear to have DNSSEC enabled.";
     recommendation := "Consider enabling DNSSEC to protect against DNS spoofing attacks." |}.

Definition mx_missing : AttackSurfaceIssue :=
  {| id := "mx-missing";
     severity := medium;
     category := "Email Delivery";
     title := "MX Records Missing";
     description := "No MX records found. Domain cannot receive emails.";
     recommendation := "Add MX records if you expect to receive emails." |}.

Definition ns_insufficient : AttackSurfaceIssue :=
  {| id := "ns-insufficient";
     severity := low;
     category := "Infrastructure";
     title := "Insufficient Nameservers";
     description := "Domain has fewer than 2 nameservers, which may affect redundancy.";
     recommendation := "Use at least 2 nameservers for redundancy." |}.

(** [!!x] for an object-or-undefined [x]. *)
Definition truthy {T : Type} (x : option T) : bool :=
  match x with Some _ => true | None => false end.

(** The body of [analyzeAttackSurface] after the five lookups have settled:
    the mutable [issues] and [riskScore] are threaded through the five
    [if] statements in program order. *)
Definition analyzeResults (domain : string)
    (spfResult dmarcResult dnssecResult mxResult nsResult : DNSLookupResult)
    : AttackSurfaceResult :=
  let issues : list AttackSurfaceIssue := [] in
  let riskScore := 0 in
  let spfRecord :=
    find (fun r => JS.startsWith (value r) "v=spf1") (records spfResult) in
  let dmarcRecord :=
    find (fun r => JS.startsWith (value r) "v=dmarc1") (records dmarcResult) in
  let spf :=
    {| present := truthy spfRecord;
       valid := match spfRecord with
                | Some r => JS.includes (value r) "v=spf1"
                | None => false
                end;
       record := option_map value spfRecord |} in
  let dmarc :=
    {| present := truthy dmarcRecord;
       valid := match dmarcRecord with
                | Some r => JS.includes (value r) "v=dmarc1"
                | None => false
                end;
       record := option_map value dmarcRecord |} in
  let dnssec :=
    {| dnssec_present := (0 <? length (records dnssecResult))%nat;
       signed := false |} in
  let mx :=
    {| rs_present := (0 <? length (records mxResult))%nat;
       rs_records := map value (records mxResult) |} in
  let ns :=
    {| rs_present := (0 <? length (records nsResult))%nat;
       rs_records := map value (records nsResult) |} in
  let '(issues, riskScore) :=
    if negb (present spf) then (issues ++ [spf_missing], riskScore + 25)
    else if negb (valid spf) then (issues ++ [spf_invalid], riskScore + 15)
    else (issues, riskScore) in
  let '(issues, riskScore) :=
    if negb (present dmarc) then (issues ++ [dmarc_missing], riskScore + 25)
    else if negb (valid dmarc) then (issues ++ [dmarc_invalid], riskScore + 10)
    else (issues, riskScore) in
  let '(issues, riskScore) :=
    if negb (dnssec_present dnssec)
    then (issues ++ [dnssec_missing], riskScore + 10)
    else (issues, riskScore) in
  let '(issues, riskScore) :=
    if negb (rs_present mx)
    then (issues ++ [mx_missing], riskScore + 15)
    else (issues, riskScore) in
  let '(issues, riskScore) :=
    if (length (rs_records ns) <? 2)%nat
    then (issues ++ [ns_insufficient], riskScore + 5)
    else (issues, riskScore) in
  let riskScore := Z.min riskScore 100 in
  {| asr_domain := domain;
     riskScore := riskScore;
     issues := issues;
     checks := {| spf := spf; dmarc := dmarc; dnssec := dnssec;
                  mx := mx; ns := ns |} |}.

(** The upstream as seen by a batch of concurrent lookups: the [i]-th
    lookup of a [Promise.all] array is answered by [net i].  Two lookups of
    one batch may thus be answered differently, or alike. *)
Definition Network := nat -> Fetch.

(** The five lookups given to [Promise.all] in [analyzeAttackSurface], in
    array order, each with the requests it sent. *)
Definition spfLookup (net : Network) (domain : string) :=
  lookupDNS_sent (net 0%nat) domain TXT.
Definition dmarcLookup (net : Network) (domain : string) :=
  lookupDNS_sent (net 1%nat) domain TXT.
Definition dnssecLookup (net : Network) (domain : string) :=
  lookupDNS_sent (net 2%nat) domain SOA.
Definition mxLookup (net : Network) (domain : string) :=
  lookupDNS_sent (net 3%nat) domain MX.
Definition nsLookup (net : Network) (domain : string) :=
  lookupDNS_sent (net 4%nat) domain NS.

(** [analyzeAttackSurface(domain)]. *)
Definition analyzeAttackSurface (net : Network) (domain : string)
    : AttackSurfaceResult :=
  let spfResult := fst (spfLookup net domain) in
  let dmarcResult := fst (dmarcLookup net domain) in
  let dnssecResult := fst (dnssecLookup net domain) in
  let mxResult := fst (mxLookup net domain) in
  let nsResult := fst (nsLookup net domain) in
  analyzeResults domain spfResult dmarcResult dnssecResult mxResult nsResult.

End Dns.

(* ================================================================== *)
(** ** components/InfrastructureGraph.tsx *)
(* ================================================================== *)

Module Graph.

Inductive NodeType := domain | a | aaaa | mx | ns | cname.

(** [interface GraphNode]. *)
Record GraphNode := {
  id : string;
  type : NodeType;
  label : string;
  value : option string
}.

(** [interface GraphLink]. *)
Record GraphLink := {
  source : string;
  target : string;
  link_type : string
}.

Definition GraphData : Type := list GraphNode * list GraphLink.

(** One [records.forEach((record) => { ... })] block of [handleAnalyze]:
    each record pushes one node and one link. *)
Definition pushRecords (cleanDomain : string) (prefix : string)
    (nodeType : NodeType) (linkType : string)
    (records : list Dns.DNSRecord) (graph : GraphData) : GraphData :=
  fold_left
    (fun '(nodes, links) record =>
       let nodeId := (prefix ++ "-" ++ Dns.value record)%string in
       (nodes ++ [ {| id := nodeId; type := nodeType;
                      label := Dns.value record;
                      value := Some (Dns.value record) |} ],
        links ++ [ {| source := cleanDomain; target := nodeId;
                      link_type := linkType |} ]))
    records graph.

(** The graph built in the [try] block of [handleAnalyze] from the five
    settled lookups. *)
Definition graphOfResults (cleanDomain : string)
    (aResult aaaaResult mxResult nsResult cnameResult : Dns.DNSLookupResult)
    : GraphData :=
  let nodes := [ {| id := cleanDomain; type := domain;
                    label := cleanDomain; value := None |} ] in
  let links : list GraphLink := [] in
  let graph := (nodes, links) in
  let graph := pushRecords cleanDomain "a" a "A" (Dns.records aResult) graph in
  let graph := pushRecords cleanDomain "aaaa" aaaa "AAAA" (Dns.records aaaaResult) graph in
  let graph := pushRecords cleanDomain "mx" mx "MX" (Dns.records mxResult) graph in
  let graph := pushRecords cleanDomain "ns" ns "NS" (Dns.records nsResult) graph in
  let graph := pushRecords cleanDomain "cname" cname "CNAME" (Dns.records cnameResult) graph in
  graph.

(** The graph that [handleAnalyze] hands to [setGraphData] for the cleaned,
    validated domain (the spec's [buildGraph]). *)
Definition buildGraph (net : Dns.Network) (cleanDomain : string) : GraphData :=
  graphOfResults cleanDomain
    (Dns.lookupDNS (net 0%nat) cleanDomain Dns.A)
    (Dns.lookupDNS (net 1%nat) cleanDomain Dns.AAAA)
    (Dns.lookupDNS (net 2%nat) cleanDomain Dns.MX)
    (Dns.lookupDNS (net 3%nat) cleanDomain Dns.NS)
    (Dns.lookupDNS (net 4%nat) cleanDomain Dns.CNAME).

End Graph.

(* ================================================================== *)
(** ** components/DNSLookupTool.tsx: the lookup history *)
(* ================================================================== *)

Module History.

(** [interface HistoryItem]; the time stamp is in milliseconds. *)
Record HistoryItem := {
  id : string;
  domain : string;
  recordType : Dns.RecordType;
  timestamp : Z
}.

(** The state that [saveHistory] and [clearHistory] touch, as one render of
    the component sees it: the [history] state variable and the
    ['dns-history'] entry of [localStorage] ([None] when the key is absent). *)
Record State := {
  history : list HistoryItem;
  stored : option (list HistoryItem)
}.

(** The predicate given to [history.filter] in [saveHistory]. *)
Definition differs (item h : HistoryItem) : bool :=
  negb (String.eqb (domain h) (domain item))
  || negb (Dns.RecordType_eqb (recordType h) (recordType item)).

(** [[item, ...history.filter(...)].slice(0, 20)]. *)
Definition updated (item : HistoryItem) (history : list HistoryItem)
    : list HistoryItem :=
  firstn 20 (item :: filter (differs item) history).

(** [saveHistory(item)], as built by the render that saw [st]:
    [useCallback(..., [history])] closes over the [history] of that render. *)
Definition saveHistory (item : HistoryItem) (st : State) : State :=
  let updated := updated item (history st) in
  {| history := updated; stored := Some updated |}.

Definition clearHistory (st : State) : State :=
  {| history := []; stored := None |}.

(** A fresh mount of the component: [useState([])], then the effect that
    reads [localStorage]. *)
Definition mount (st : State) : State :=
  match stored st with
  | Some saved => {| history := saved; stored := stored st |}
  | None => {| history := []; stored := stored st |}
  end.

Definition initial : State := {| history := []; stored := None |}.

(** The tool over time: the states it has been in, the current one first,
    and the number of actions since the component was last mounted. *)
Record Tool := {
  past : list State;
  sinceMount : nat
}.

Definition start : Tool := {| past := [initial]; sinceMount := 0 |}.

Definition current (t : Tool) : State := hd initial (past t).

(** [handleLookup] calls [saveHistory] after [await lookupDNS(...)], and it is
    the [saveHistory] of the render in which the lookup was started: the
    function closes over the state as it was [back] actions ago.  Nothing
    keeps a second lookup from being started (Ctrl+Enter) or the history from
    being cleared while a lookup is in flight, so [back] can be any number; a
    number beyond the first state means the first state. *)
Definition reach (back : nat) (t : Tool) : nat :=
  Nat.min back (length (past t) - 1).

Definition captured (back : nat) (t : Tool) : State :=
  nth (reach back t) (past t) initial.

(** The lookup was started by the component that is mounted now. *)
Definition alive (back : nat) (t : Tool) : bool :=
  Nat.leb (reach back t) (sinceMount t).

(** What happens to the history: a lookup started [back] actions ago ends
    without error and saves [item]; the user clears the history; the
    component is mounted anew. *)
Inductive Action :=
| Save (back : nat) (item : HistoryItem)
| Clear
| Mount.

(** [setHistory] of a component that is no longer mounted has no effect on
    the one that is; [localStorage.setItem] is carried out all the same. *)
Definition step (t : Tool) (act : Action) : Tool :=
  match act with
  | Save back item =>
      let saved := saveHistory item (captured back t) in
      let next :=
        if alive back t then saved
        else {| history := history (current t); stored := stored saved |} in
      {| past := next :: past t; sinceMount := S (sinceMount t) |}
  | Clear =>
      {| past := clearHistory (current t) :: past t;
         sinceMount := S (sinceMount t) |}
  | Mount =>
      {| past := mount (current t) :: past t; sinceMount := 0 |}
  end.

(** The tool after a sequence of actions, first action first. *)
Definition run (acts : list Action) : Tool := fold_left step acts start.

End History.

(* ================================================================== *)
(** ** The behaviour the specification describes *)
(* ================================================================== *)

(** Definitions written from the words of the specification, to be compared
    with the code above. *)
Module Spec.

Import Dns.

(** §4.2: "SPF: present iff any TXT record's value starts with the literal
    prefix v=spf1; valid iff present". *)
Definition spfPresent (txt : list DNSRecord) : bool :=
  existsb (fun r => JS.startsWith (value r) "v=spf1") txt.
Definition spfValid (txt : list DNSRecord) : bool := spfPresent txt.

(** §4.2: "DMARC: present iff any TXT record's value starts with v=dmarc1;
    valid iff present". *)
Definition dmarcPresent (txt : list DNSRecord) : bool :=
  existsb (fun r => JS.startsWith (value r) "v=dmarc1") txt.
Definition dmarcValid (txt : list DNSRecord) : bool := dmarcPresent txt.

(** One row of the rule table of §4.2, its condition already evaluated. *)
Record Rule := {
  slug : string;
  condition : bool;
  delta : Z
}.

(** The rule table of §4.2 for the records returned by the five lookups. *)
Definition ruleTable (spfTxt dmarcTxt soa mx ns : list DNSRecord) : list Rule :=
  [ {| slug := "spf-missing"; condition := negb (spfPresent spfTxt); delta := 25 |};
    {| slug := "spf-invalid";
       condition := spfPresent spfTxt && negb (spfValid spfTxt); delta := 15 |};
    {| slug := "dmarc-missing"; condition := negb (dmarcPresent dmarcTxt); delta := 25 |};
    {| slug := "dmarc-invalid";
       condition := dmarcPresent dmarcTxt && negb (dmarcValid dmarcTxt); delta := 10 |};
    {| slug := "dnssec-missing";
       condition := match soa with [] => true | _ => false end; delta := 10 |};
    {| slug := "mx-missing";
       condition := match mx with [] => true | _ => false end; delta := 15 |};
    {| slug := "ns-insufficient"; condition := (length ns <? 2)%nat; delta := 5 |} ].

(** "All applicable rules fire". *)
Definition fired (rules : list Rule) : list Rule := filter condition rules.

(** The sum of the score deltas of a list of rules. *)
Definition total (rules : list Rule) : Z := fold_right Z.add 0 (map delta rules).

(** §4.3: the five relations of the relationship mapper, each with the node
    type given to its records. *)
Definition symbol (t : RecordType) : string :=
  match t with
  | A => "A" | AAAA => "AAAA" | MX => "MX" | TXT => "TXT" | CNAME => "CNAME"
  | NS => "NS" | SOA => "SOA" | PTR => "PTR" | SRV => "SRV"
  end.

(** §4.3: the node [{id: "<lowercased-type-prefix>-<record value>", type,
    label: record value, value: record value}]. *)
Definition leafNode (t : RecordType) (nodeType : Graph.NodeType)
    (r : DNSRecord) : Graph.GraphNode :=
  {| Graph.id := (JS.toLowerCase (symbol t) ++ "-" ++ value r)%string;
     Graph.type := nodeType;
     Graph.label := value r;
     Graph.value := Some (value r) |}.

(** §4.3: the link [{source: domain, target: that node id, type: <record
    type symbol>}]. *)
Definition leafLink (root : string) (t : RecordType) (r : DNSRecord)
    : Graph.GraphLink :=
  {| Graph.source := root;
     Graph.target := (JS.toLowerCase (symbol t) ++ "-" ++ value r)%string;
     Graph.link_type := symbol t |}.

(** §4.3: the root node, then one node and one link per record of the A,
    AAAA, MX, NS and CNAME lookups, in that order. *)
Definition graph (root : string) (aRecs aaaaRecs mxRecs nsRecs cnameRecs : list DNSRecord)
    : Graph.GraphData :=
  ( {| Graph.id := root; Graph.type := Graph.domain; Graph.label := root;
       Graph.value := None |}
      :: map (leafNode A Graph.a) aRecs ++ map (leafNode AAAA Graph.aaaa) aaaaRecs
      ++ map (leafNode MX Graph.mx) mxRecs ++ map (leafNode NS Graph.ns) nsRecs
      ++ map (leafNode CNAME Graph.cname) cnameRecs,
    map (leafLink root A) aRecs ++ map (leafLink root AAAA) aaaaRecs
      ++ map (leafLink root MX) mxRecs ++ map (leafLink root NS) nsRecs
      ++ map (leafLink root CNAME) cnameRecs ).

(** §3: two history entries are for the same [(domain, recordType)] pair. *)
Definition samePair (x y : History.HistoryItem) : bool :=
  String.eqb (History.domain x) (History.domain y)
  && RecordType_eqb (History.recordType x) (History.recordType y).

(** §3: the distinct pairs of a sequence of entries given newest first: of
    the entries for one pair only the newest stays. *)
Fixpoint newestFirst (entries : list History.HistoryItem) : list History.HistoryItem :=
  match entries with
  | [] => []
  | x :: older => x :: filter (fun h => negb (samePair h x)) (newestFirst older)
  end.

(** §3: "capped at the 20 most recent distinct (domain, recordType) pairs,
    newest first", for entries given in the order of their insertion. *)
Definition expectedHistory (inserted : list History.HistoryItem)
    : list History.HistoryItem :=
  firstn 20 (newestFirst (rev inserted)).

End Spec.

(* ================================================================== *)
(** ** Notions used to state the properties of [lookupDNS] *)
(* ================================================================== *)

Module Aux.

Import Dns.

(** The request that [lookupDNS(domain, recordType)] sends to a server. *)
Definition requestTo (domain : string) (recordType : RecordType)
    (server : string) : Request :=
  {| req_server := server; req_name := domain;
     req_type := typeCode recordType |}.

(** The response was read and has [Status] 3. *)
Definition nxdomain (o : FetchOutcome) : bool :=
  match o with
  | Response status (Json data) => ok status && (Status data =? 3)
  | _ => false
  end.

(** The response was read and has [Status] 0 and an [Answer] member. *)
Definition answered (o : FetchOutcome) : bool :=
  match o with
  | Response status (Json data) =>
      ok status && (Status data =? 0) && truthy (Answer data)
  | _ => false
  end.

(** A usable answer: one on which [lookupDNS] returns. *)
Definition usable (o : FetchOutcome) : bool := answered o || nxdomain o.

(** What an endpoint whose outcome is not usable adds to [errors]: one
    message for a rejected fetch, a non-2xx status or an unreadable body,
    and nothing for a body that was read. *)
Definition recorded (server : string) (o : FetchOutcome) : list string :=
  match o with
  | Rejected thrown => [("Server " ++ server ++ " failed: " ++ thrown)%string]
  | Response status body =>
      if negb (ok status)
      then [("Server " ++ server ++ " returned " ++ JS.numberToString status)%string]
      else match body with
           | BadJson thrown =>
               [("Server " ++ server ++ " failed: " ++ thrown)%string]
           | Json _ => []
           end
  end.

(** No element of the first list occurs in the second. *)
Definition disjoint {T : Type} (l1 l2 : list T) : Prop :=
  forall x, In x l1 -> ~ In x l2.

(** The ids [`${prefix}-${value}`] of the nodes made from a list of
    values. *)
Definition prefixed (prefix : string) (vs : list string) : list string :=
  map (fun v => (prefix ++ "-" ++ v)%string) vs.

(** [node.type === 'domain']. *)
Definition isDomain (n : Graph.GraphNode) : bool :=
  match Graph.type n with Graph.domain => true | _ => false end.

(** The values of the records of a lookup result. *)
Definition values (r : DNSLookupResult) : list string := map value (records r).

(** The [(domain, recordType)] pair of a history entry. *)
Definition key (h : History.HistoryItem) : string * RecordType :=
  (History.domain h, History.recordType h).

(** What the history list is claimed to satisfy at all times. *)
Definition historyOk (l : list History.HistoryItem) : Prop :=
  (length l <= 20)%nat /\ NoDup (map key l).

(** The invariant of the component state: the list in memory and the list
    in storage are both well formed. *)
Definition stateOk (st : History.State) : Prop :=
  historyOk (History.history st)
  /\ forall saved, History.stored st = Some saved -> historyOk saved.

End Aux.

(* ================================================================== *)
(** ** Concrete upstreams used in the examples below *)
(* ================================================================== *)

Module Examples.

Import Dns.

(** Every request fails at the transport level. *)
Definition net_down : Network :=
  fun _ _ => Rejected "TypeError: Failed to fetch".

(** Every endpoint answers NXDOMAIN. *)
Definition net_nxdomain : Network :=
  fun _ _ => Response 200 (Json {| Status := 3; Answer := None |}).

(** Every endpoint answers SERVFAIL (status 2) with HTTP status 200. *)
Definition net_servfail : Network :=
  fun _ _ => Response 200 (Json {| Status := 2; Answer := None |}).

Definition answer (code : Z) (data : string) : DNSAnswer :=
  {| ans_name := "example.com"; ans_type := code; ans_TTL := 300;
     ans_data := data |}.

(** TXT queries return an SPF policy and an upper-case DMARC policy; every
    other query returns no data. *)
Definition net_txt : Network :=
  fun _ request =>
    if req_type request =? 16 then
      Response 200 (Json {| Status := 0;
                            Answer := Some [ answer 16 "v=spf1 include:_spf.example.com ~all";
                                             answer 16 "v=DMARC1; p=reject" ] |})
    else Response 200 (Json {| Status := 0; Answer := None |}).

(** Two A records and one MX record; nothing for the other types. *)
Definition net_two_a_one_mx : Network :=
  fun _ request =>
    if req_type request =? 1 then
      Response 200 (Json {| Status := 0;
                            Answer := Some [ answer 1 "192.0.2.1"; answer 1 "192.0.2.2" ] |})
    else if req_type request =? 15 then
      Response 200 (Json {| Status := 0;
                            Answer := Some [ answer 15 "10 mail.example.com." ] |})
    else Response 200 (Json {| Status := 0; Answer := None |}).

(** The same A record twice in one answer. *)
Definition net_repeated_a : Network :=
  fun _ request =>
    if req_type request =? 1 then
      Response 200 (Json {| Status := 0;
                            Answer := Some [ answer 1 "192.0.2.1"; answer 1 "192.0.2.1" ] |})
    else Response 200 (Json {| Status := 0; Answer := None |}).

(** History entries: lookups of [a.example.com], [b.example.com], ... at
    successive times. *)
Definition entry (n : nat) (t : RecordType) : History.HistoryItem :=
  {| History.id := JS.numberToString (1700000000000 + Z.of_nat n);
     History.domain := String (ascii_of_nat (97 + n)) ".example.com";
     History.recordType := t;
     History.timestamp := 1700000000000 + Z.of_nat n |}.

(** Twenty-one entries for twenty-one different domains. *)
Definition entries21 : list History.HistoryItem :=
  map (fun n => entry n A) (seq 0 21).

End Examples.

(* ================================================================== *)
(** ** Further string primitives *)
(* ================================================================== *)

Module Str.

(** An index argument of [slice], relative to a string of length [len]:
    negative indices count from the end, and the result is clamped to
    [0, len]. *)
Definition sliceIndex (len i : Z) : Z :=
  if i <? 0 then Z.max (len + i) 0 else Z.min i len.

(** [s.slice(from, to)] for integral arguments. *)
Definition slice (s : string) (from to : Z) : string :=
  let len := Z.of_nat (String.length s) in
  let a := sliceIndex len from in
  let b := sliceIndex len to in
  String.substring (Z.to_nat a) (Z.to_nat (Z.max (b - a) 0)) s.

(** An index argument of [substring]: clamped to [0, len]. *)
Definition clampIndex (len i : Z) : Z := Z.min (Z.max i 0) len.

(** [s.substring(from, to)] for integral arguments: the two indices are
    clamped and put in order. *)
Definition substring (s : string) (from to : Z) : string :=
  let len := Z.of_nat (String.length s) in
  let a := clampIndex len from in
  let b := clampIndex len to in
  String.substring (Z.to_nat (Z.min a b)) (Z.to_nat (Z.max a b - Z.min a b)) s.

(** [xs.indexOf(x)], [-1] when absent. *)
Fixpoint indexOf {T : Type} (eqb : T -> T -> bool) (xs : list T) (x : T) : Z :=
  match xs with
  | [] => -1
  | y :: ys =>
      if eqb y x then 0
      else let i := indexOf eqb ys x in if i <? 0 then -1 else i + 1
  end.

(** [xs.findIndex(p)] as an option ([None] for [-1]). *)
Fixpoint findIndex {T : Type} (p : T -> bool) (xs : list T) : option nat :=
  match xs with
  | [] => None
  | y :: ys => if p y then Some 0%nat else option_map S (findIndex p ys)
  end.

(** [xs[i] = x] for an index within the array. *)
Fixpoint setAt {T : Type} (i : nat) (x : T) (xs : list T) : list T :=
  match xs, i with
  | [], _ => []
  | _ :: ys, O => x :: ys
  | y :: ys, S j => y :: setAt j x ys
  end.

(** The stable sort that [Array.prototype.sort] performs for a comparator
    [cmp] (negative: first argument first): insertion from the right, an
    element going before the first element it does not exceed. *)
Fixpoint insertBy {T : Type} (cmp : T -> T -> Z) (x : T) (xs : list T) : list T :=
  match xs with
  | [] => [x]
  | y :: ys => if cmp x y <=? 0 then x :: y :: ys else y :: insertBy cmp x ys
  end.

Definition sort {T : Type} (cmp : T -> T -> Z) (xs : list T) : list T :=
  fold_right (insertBy cmp) [] xs.

End Str.

(* ================================================================== *)
(** ** lib/utils.ts *)
(* ================================================================== *)

Module Utils.

(** [truncateText(text, maxLength)]. *)
Definition truncateText (text : string) (maxLength : Z) : string :=
  if Z.of_nat (String.length text) <=? maxLength then text
  else (Str.slice text 0 (maxLength - 3) ++ "...")%string.

(** [getRiskScoreColor(score)]. *)
Definition getRiskScoreColor (score : Z) : string :=
  if 80 <=? score then "text-red-500"
  else if 60 <=? score then "text-orange-500"
  else if 40 <=? score then "text-yellow-500"
  else if 20 <=? score then "text-blue-500"
  else "text-green-500".

(** [getRiskScoreLabel(score)]. *)
Definition getRiskScoreLabel (score : Z) : string :=
  if 80 <=? score then "Critical"
  else if 60 <=? score then "High"
  else if 40 <=? score then "Medium"
  else if 20 <=? score then "Low"
  else "Minimal".

Section RelativeTime.

(** [formatDate], which renders through [Intl.DateTimeFormat], is left
    open. *)
Variable formatDate : Z -> string.

(** [formatRelativeTime(date)] when the clock reads [now]; both are times in
    milliseconds. *)
Definition formatRelativeTime (now date : Z) : string :=
  let diffInSeconds := (now - date) / 1000 in
  if diffInSeconds <? 60 then "just now"
  else if diffInSeconds <? 3600
  then (JS.numberToString (diffInSeconds / 60) ++ "m ago")%string
  else if diffInSeconds <? 86400
  then (JS.numberToString (diffInSeconds / 3600) ++ "h ago")%string
  else formatDate date.

End RelativeTime.

End Utils.

(* ================================================================== *)
(** ** components/AttackSurfaceTool.tsx: the issue list as displayed *)
(* ================================================================== *)

Module AttackSurfaceTool.

Import Dns.

Definition Severity_eqb (x y : Severity) : bool :=
  match x, y with
  | critical, critical | high, high | medium, medium | low, low => true
  | _, _ => false
  end.

Definition severityOrder : list Severity := [critical; high; medium; low].

(** The comparator given to [sort]. *)
Definition bySeverity (a b : AttackSurfaceIssue) : Z :=
  Str.indexOf Severity_eqb severityOrder (severity a)
  - Str.indexOf Severity_eqb severityOrder (severity b).

(** [[...result.issues].sort(...)]: the issues in the order in which they
    are rendered. *)
Definition displayedIssues (result : AttackSurfaceResult) : list AttackSurfaceIssue :=
  Str.sort bySeverity (issues result).

(** The status given to the SPF and DMARC badges. *)
Definition emailBadge (c : EmailCheck) : string :=
  if present c then (if valid c then "valid" else "invalid") else "missing".

End AttackSurfaceTool.

(* ================================================================== *)
(** ** components/SubdomainTestTool.tsx: the propagation check *)
(* ================================================================== *)

Module SubdomainTest.

Import Dns.

Inductive Status := pending | checking | found | not_found | error.

(** [interface TestResult]. *)
Record TestResult := {
  subdomain : string;
  status : Status;
  ip : option string;
  err : option string
}.

(** An element of [dnsServers]. *)
Record Server := {
  name : string;
  url : string
}.

Definition dnsServers : list Server :=
  [ {| name := "Google"; url := "https://dns.google/resolve" |};
    {| name := "Cloudflare"; url := "https://cloudflare-dns.com/dns-query" |};
    {| name := "Quad9"; url := "https://dns.quad9.net:5053/dns-query" |} ].

(** The upstream for [fetch(`${server.url}?name=${testSubdomain}&type=A`)],
    by server URL and queried name. *)
Definition FetchA := string -> string -> FetchOutcome.

(** The state of the loop: the local array [newResults] and the values
    passed to [setResults] so far, oldest first. *)
Definition LoopState : Type := list TestResult * list (list TestResult).

(** [newResults[idx] = r] with [idx] from [findIndex]; for [-1] the array
    elements stay as they are. *)
Definition replaceNamed (serverName : string) (r : TestResult)
    (newResults : list TestResult) : list TestResult :=
  match Str.findIndex (fun x => String.eqb (subdomain x) serverName) newResults with
  | Some idx => Str.setAt idx r newResults
  | None => newResults
  end.

(** One turn of the [for (const server of dnsServers)] loop. *)
Definition checkServer (fetch : FetchA) (testSubdomain : string)
    (st : LoopState) (server : Server) : LoopState :=
  let '(newResults, shown) := st in
  let newResults :=
    newResults ++ [ {| subdomain := name server; status := checking;
                       ip := None; err := None |} ] in
  let shown := shown ++ [newResults] in
  let connectionFailed :=
    {| subdomain := name server; status := error; ip := None;
       err := Some "Connection failed" |} in
  let newResults :=
    match fetch (url server) testSubdomain with
    | Rejected _ => replaceNamed (name server) connectionFailed newResults
    | Response httpStatus body =>
        if ok httpStatus then
          match body with
          | BadJson _ => replaceNamed (name server) connectionFailed newResults
          | Json data =>
              match Answer data with
              | Some (first :: _) =>
                  replaceNamed (name server)
                    {| subdomain := name server; status := found;
                       ip := Some (ans_data first); err := None |} newResults
              | _ =>
                  replaceNamed (name server)
                    {| subdomain := name server; status := not_found;
                       ip := None; err := None |} newResults
              end
          end
        else
          replaceNamed (name server)
            {| subdomain := name server; status := error; ip := None;
               err := Some "Request failed" |} newResults
    end in
  (newResults, shown ++ [newResults]).

(** [handleCheckPropagation] over a list of servers: the values passed to
    [setResults], oldest first; the last one is what stays displayed. *)
Definition checkPropagation (fetch : FetchA) (servers : list Server)
    (testSubdomain : string) : list (list TestResult) :=
  if String.eqb testSubdomain "" then []
  else
    let shown := [ [] ] in
    snd (fold_left (checkServer fetch testSubdomain) servers ([], shown)).

(** [handleCheckPropagation()]. *)
Definition handleCheckPropagation (fetch : FetchA) (testSubdomain : string)
    : list (list TestResult) :=
  checkPropagation fetch dnsServers testSubdomain.

End SubdomainTest.

(* ================================================================== *)
(** ** components/DNSLookupTool.tsx: handleLookup *)
(* ================================================================== *)

Module LookupTool.

Import Dns.



End LookupTool.

(* ================================================================== *)
(** ** components/DNSLookupTool.tsx: the value cell of the result table *)
(* ================================================================== *)

Module LookupView.

Import Dns.

(** [`${record.priority}`]. *)
Definition priorityText (p : option JS.Number) : string :=
  match p with
  | None => "undefined"
  | Some x => JS.numberText x
  end.

(** The text of the value cell:
    [record.type === 'MX' ? `${record.priority} ${record.value}` : record.value]. *)
Definition valueCell (r : DNSRecord) : string :=
  if String.eqb (type r) "MX"
  then (priorityText (priority r) ++ " " ++ value r)%string
  else value r.

End LookupView.

(* ================================================================== *)
(** ** Regular expressions, as far as lib/utils.ts uses them *)
(* ================================================================== *)

Module RegExp.

(** The pattern language: character classes, sequence, alternative and
    repetition.  [r+], [r{n}], [r{n,}] and [r{n,m}] are written with these
    below. *)
Inductive Regex :=
| Fail
| Eps
| Class (p : ascii -> bool)
| Seq (a b : Regex)
| Alt (a b : Regex)
| Star (a : Regex).

(** [r+]. *)
Definition Plus (r : Regex) : Regex := Seq r (Star r).

(** [r{n}]. *)
Fixpoint Times (n : nat) (r : Regex) : Regex :=
  match n with
  | O => Eps
  | S n' => Seq r (Times n' r)
  end.

(** [r{0,k}]. *)
Fixpoint UpTo (k : nat) (r : Regex) : Regex :=
  match k with
  | O => Eps
  | S k' => Alt Eps (Seq r (UpTo k' r))
  end.

(** [r{n,}]. *)
Definition AtLeast (n : nat) (r : Regex) : Regex := Seq (Times n r) (Star r).

(** [r{n,m}] for [n <= m]. *)
Definition Between (n m : nat) (r : Regex) : Regex :=
  Seq (Times n r) (UpTo (m - n) r).

(** The pattern matches the empty string. *)
Fixpoint nullable (r : Regex) : bool :=
  match r with
  | Fail => false
  | Eps => true
  | Class _ => false
  | Seq a b => nullable a && nullable b
  | Alt a b => nullable a || nullable b
  | Star _ => true
  end.

(** What is left of the pattern after the character [c]. *)
Fixpoint deriv (c : ascii) (r : Regex) : Regex :=
  match r with
  | Fail => Fail
  | Eps => Fail
  | Class p => if p c then Eps else Fail
  | Seq a b =>
      if nullable a then Alt (Seq (deriv c a) b) (deriv c b)
      else Seq (deriv c a) b
  | Alt a b => Alt (deriv c a) (deriv c b)
  | Star a => Seq (deriv c a) (Star a)
  end.

(** [/^r$/.test(s)]: the whole of [s] matches [r]. *)
Fixpoint matches (r : Regex) (s : string) : bool :=
  match s with
  | EmptyString => nullable r
  | String c s' => matches (deriv c r) s'
  end.

(** Character classes. *)
Definition inRange (lo hi : nat) (c : ascii) : bool :=
  let n := nat_of_ascii c in (Nat.leb lo n && Nat.leb n hi)%bool.

(** [\d] and [0-9]. *)
Definition digit : ascii -> bool := inRange 48 57.
(** [a-z], [A-Z]. *)
Definition lower : ascii -> bool := inRange 97 122.
Definition upper : ascii -> bool := inRange 65 90.
(** [[a-zA-Z]]. *)
Definition letter (c : ascii) : bool := lower c || upper c.
(** [[a-zA-Z0-9-]]. *)
Definition labelChar (c : ascii) : bool :=
  lower c || upper c || digit c || Ascii.eqb c "-".
(** [[0-9a-fA-F]]. *)
Definition hexDigit (c : ascii) : bool :=
  digit c || inRange 97 102 c || inRange 65 70 c.
(** An escaped literal character such as [\.]. *)
Definition only (x : ascii) (c : ascii) : bool := Ascii.eqb c x.

End RegExp.

(* ================================================================== *)
(** ** lib/utils.ts: the validators *)
(* ================================================================== *)

Module Validation.

Import RegExp.

(** The part of [domainRegex] between the look-ahead and [$]:
    [([a-zA-Z0-9-]+\.)*[a-zA-Z0-9-]+\.[a-zA-Z]{2,}]. *)
Definition domainBody : Regex :=
  Seq (Star (Seq (Plus (Class labelChar)) (Class (only "."))))
      (Seq (Plus (Class labelChar))
           (Seq (Class (only ".")) (AtLeast 2 (Class letter)))).

(** [isValidDomain(domain)]: the negative look-ahead [(?!:\/\/)] right after
    [^] asks that the string does not start with [://]; then the whole
    string must match the rest of the pattern. *)
Definition isValidDomain (domain : string) : bool :=
  negb (JS.startsWith domain "://") && matches domainBody domain.

(** [(\d{1,3}\.){3}\d{1,3}]. *)
Definition ipv4Regex : Regex :=
  Seq (Times 3 (Seq (Between 1 3 (Class digit)) (Class (only "."))))
      (Between 1 3 (Class digit)).

(** [([0-9a-fA-F]{1,4}:){7}[0-9a-fA-F]{1,4}]. *)
Definition ipv6Regex : Regex :=
  Seq (Times 7 (Seq (Between 1 4 (Class hexDigit)) (Class (only ":"))))
      (Between 1 4 (Class hexDigit)).

(** [isValidIP(ip)]. *)
Definition isValidIP (ip : string) : bool :=
  matches ipv4Regex ip || matches ipv6Regex ip.

End Validation.

(* ================================================================== *)
(** ** lib/dns.ts: generateTestSubdomain and getIPIntelligence *)
(* ================================================================== *)

Module DnsMore.

Import Dns.

(** [generateTestSubdomain(baseDomain)], given the text [randomText] that
    [Math.random().toString(36)] produced. *)
Definition generateTestSubdomain (randomText : string) (baseDomain : string)
    : string :=
  let random := Str.substring randomText 2 8 in
  ("test-" ++ random ++ "." ++ baseDomain)%string.

(** A number of a JSON body that the code only passes on, as written in the
    body. *)
Definition JsonNumber := string.





(** [interface IPIntelligenceData]. *)
Record IPIntelligenceData := {
  ip : string;
  version : Z;
  country : string;
  countryCode : string;
  region : string;
  city : string;
  isp : string;
  org : string;
  asn : string;
  lat : JsonNumber;
  lon : JsonNumber;
  timezone : string;
  isMobile : bool;
  isProxy : bool;
  isHosting : bool
}.


(** What the IP tool shows: its state variables [result], [loading] and
    [error].  The result panel is rendered whenever [result] is not [null]. *)
Record View := {
  result : option IPIntelligenceData;
  loading : bool;
  error : option string
}.




End DnsMore.

(* ================================================================== *)
(** ** components/AttackSurfaceTool.tsx: handleAnalyze *)
(* ================================================================== *)

Module AnalyzeTool.

Import Dns.

(** What the attack-surface tool shows: its state variables [result],
    [loading] and [error].  The analysis is rendered whenever [result] is not
    [null]. *)
Record View := {
  result : option AttackSurfaceResult;
  loading : bool;
  error : option string
}.





End AnalyzeTool.

(* ================================================================== *)
(** ** The language of a pattern *)
(* ================================================================== *)

Module Lang.

Import RegExp.

(** Concatenations of strings of a language. *)
Inductive star (L : string -> Prop) : string -> Prop :=
| star_nil : star L EmptyString
| star_app s1 s2 : L s1 -> star L s2 -> star L (s1 ++ s2)%string.

(** The strings that a pattern denotes. *)
Fixpoint lang (r : Regex) : string -> Prop :=
  match r with
  | Fail => fun _ => False
  | Eps => fun s => s = EmptyString
  | Class p => fun s => exists c, s = String c EmptyString /\ p c = true
  | Seq a b => fun s => exists s1 s2, s = (s1 ++ s2)%string /\ lang a s1 /\ lang b s2
  | Alt a b => fun s => lang a s \/ lang b s
  | Star a => star (lang a)
  end.

(** Every character of the string passes the test. *)
Fixpoint allChars (p : ascii -> bool) (s : string) : bool :=
  match s with
  | EmptyString => true
  | String c s' => p c && allChars p s'
  end.

(** The groups, each followed by the separator. *)
Fixpoint terminated (sep : string) (groups : list string) : string :=
  match groups with
  | [] => EmptyString
  | g :: gs => (g ++ sep ++ terminated sep gs)%string
  end.

(** A label of a domain name as the validator sees it: not empty, of
    letters, digits and hyphens. *)
Definition isLabel (s : string) : Prop :=
  s <> EmptyString /\ allChars labelChar s = true.

(** A top-level domain as the validator sees it: two letters or more. *)
Definition isTld (s : string) : Prop :=
  (2 <= String.length s)%nat /\ allChars letter s = true.

(** A group of between [lo] and [hi] characters of a class. *)
Definition isGroup (p : ascii -> bool) (lo hi : nat) (s : string) : Prop :=
  (lo <= String.length s <= hi)%nat /\ allChars p s = true.

(** The characters a validated domain can contain. *)
Definition domainChar (c : ascii) : bool := labelChar c || Ascii.eqb c ".".

End Lang.

(* ================================================================== *)
(** ** Notions used to state the further properties *)
(* ================================================================== *)

Module Notions.

Import Dns SubdomainTest.

(** The entry shown for a server while its request is in flight. *)
Definition inFlight (server : Server) : TestResult :=
  {| subdomain := name server; status := checking; ip := None; err := None |}.

(** The entry a server ends with, by what its request came to. *)
Definition verdict (fetch : FetchA) (testSubdomain : string) (server : Server)
    : TestResult :=
  match fetch (url server) testSubdomain with
  | Rejected _ =>
      {| subdomain := name server; status := error; ip := None;
         err := Some "Connection failed" |}
  | Response httpStatus (BadJson _) =>
      if ok httpStatus
      then {| subdomain := name server; status := error; ip := None;
              err := Some "Connection failed" |}
      else {| subdomain := name server; status := error; ip := None;
              err := Some "Request failed" |}
  | Response httpStatus (Json data) =>
      if ok httpStatus then
        match Answer data with
        | Some (first :: _) =>
            {| subdomain := name server; status := found;
               ip := Some (ans_data first); err := None |}
        | _ =>
            {| subdomain := name server; status := not_found;
               ip := None; err := None |}
        end
      else {| subdomain := name server; status := error; ip := None;
              err := Some "Request failed" |}
  end.

(** The lists displayed while the servers [rest] are checked, after the
    servers [done]: for each server first the verdicts so far followed by
    its in-flight entry, then the verdicts including its own. *)
Fixpoint snapshots (fetch : FetchA) (testSubdomain : string)
    (done rest : list Server) : list (list TestResult) :=
  match rest with
  | [] => []
  | server :: rest' =>
      (map (verdict fetch testSubdomain) done ++ [inFlight server])
      :: map (verdict fetch testSubdomain) (done ++ [server])
      :: snapshots fetch testSubdomain (done ++ [server]) rest'
  end.

End Notions.

(* ================================================================== *)
(** ** Further concrete inputs *)
(* ================================================================== *)

Module Samples.

Import Dns.

(** The first endpoint cannot be reached; the second answers with one A
    record. *)
Definition fetch_second_answers : Fetch :=
  fun request =>
    if String.eqb (req_server request) "https://dns.google/resolve"
    then Rejected "TypeError: Failed to fetch"
    else Response 200
           (Json {| Status := 0;
                    Answer := Some [ {| ans_name := "x"; ans_type := 1;
                                        ans_TTL := 300; ans_data := "1.2.3.4" |} ] |}).

(** The first endpoint answers HTTP 503; the second cannot be reached. *)
Definition fetch_unavailable : Fetch :=
  fun request =>
    if String.eqb (req_server request) "https://dns.google/resolve"
    then Response 503 (BadJson "SyntaxError")
    else Rejected "TypeError: Failed to fetch".

(** Google resolves the name, Cloudflare has no answer for it, Quad9 cannot
    be reached. *)
Definition fetch_propagating : SubdomainTest.FetchA :=
  fun url _ =>
    if String.eqb url "https://dns.google/resolve" then
      Response 200 (Json {| Status := 0;
                            Answer := Some [ Examples.answer 1 "192.0.2.7" ] |})
    else if String.eqb url "https://cloudflare-dns.com/dns-query" then
      Response 200 (Json {| Status := 3; Answer := None |})
    else Rejected "TypeError: Failed to fetch".







End Samples.

(* ================================================================== *)
(** ** Properties of the string primitives *)
(* ================================================================== *)

Lemma startsWith_includes (s p : string) :
  JS.startsWith s p = true -> JS.includes s p = true.
Proof.
  unfold JS.startsWith. intros H.
  destruct s; cbn [JS.includes]; rewrite H; reflexivity.
Qed.

Lemma truthy_find {T : Type} (f : T -> bool) (l : list T) :
  Dns.truthy (find f l) = existsb f l.
Proof.
  induction l as [|x l IH]; simpl; [reflexivity|].
  destruct (f x); simpl; [reflexivity | exact IH].
Qed.

(* ================================================================== *)
(** ** analyzeAttackSurface *)
(* ================================================================== *)

Section Analyze.

Import Dns.

Variables (domain : string).
Variables (spfResult dmarcResult dnssecResult mxResult nsResult : DNSLookupResult).

Let result :=
  analyzeResults domain spfResult dmarcResult dnssecResult mxResult nsResult.
Let table :=
  Spec.ruleTable (records spfResult) (records dmarcResult)
    (records dnssecResult) (records mxResult) (records nsResult).

(** The record found by the SPF search passes the validity test, which looks
    for the same literal. *)
Lemma spf_found_valid r :
  find (fun r => JS.startsWith (value r) "v=spf1") (records spfResult) = Some r ->
  JS.includes (value r) "v=spf1" = true.
Proof.
  intros H. apply find_some in H. apply startsWith_includes, H.
Qed.

Lemma dmarc_found_valid r :
  find (fun r => JS.startsWith (value r) "v=dmarc1") (records dmarcResult) = Some r ->
  JS.includes (value r) "v=dmarc1" = true.
Proof.
  intros H. apply find_some in H. apply startsWith_includes, H.
Qed.

(** The imperative accumulation computes the table-driven result. *)
Lemma analyzeResults_table :
  riskScore result = Z.min (Spec.total (Spec.fired table)) 100
  /\ map id (issues result) = map Spec.slug (Spec.fired table)
  /\ present (spf (checks result)) = Spec.spfPresent (records spfResult)
  /\ valid (spf (checks result)) = Spec.spfValid (records spfResult)
  /\ present (dmarc (checks result)) = Spec.dmarcPresent (records dmarcResult)
  /\ valid (dmarc (checks result)) = Spec.dmarcValid (records dmarcResult).
Proof.
  subst result table.
  unfold analyzeResults, Spec.ruleTable, Spec.fired, Spec.total,
    Spec.spfValid, Spec.dmarcValid, Spec.spfPresent, Spec.dmarcPresent.
  rewrite <- !truthy_find.
  pose proof spf_found_valid as Hs. pose proof dmarc_found_valid as Hd.
  destruct (find _ (records spfResult)) as [rs|];
    [ rewrite (Hs rs eq_refl) | ]; clear Hs;
  (destruct (find _ (records dmarcResult)) as [rd|];
    [ rewrite (Hd rd eq_refl) | ]; clear Hd);
  destruct (records dnssecResult) as [|? ?];
  destruct (records mxResult) as [|? ?];
  destruct (records nsResult) as [|? [|? ?]];
  cbn; repeat split; reflexivity.
Qed.

End Analyze.

Section AnalyzeRun.

Import Dns.

Variables (net : Network) (domain : string).

Lemma fired_total_bounds (spfTxt dmarcTxt soa mxs nss : list DNSRecord) :
  0 <= Spec.total (Spec.fired (Spec.ruleTable spfTxt dmarcTxt soa mxs nss)) <= 80.
Proof.
  unfold Spec.ruleTable, Spec.fired, Spec.total, Spec.spfValid, Spec.dmarcValid.
  destruct (Spec.spfPresent spfTxt), (Spec.dmarcPresent dmarcTxt),
    soa as [|? ?], mxs as [|? ?], nss as [|? [|? ?]]; cbn; lia.
Qed.

Lemma fired_never_invalid (spfTxt dmarcTxt soa mxs nss : list DNSRecord) (s : string) :
  In s (map Spec.slug (Spec.fired (Spec.ruleTable spfTxt dmarcTxt soa mxs nss))) ->
  s <> "spf-invalid" /\ s <> "dmarc-invalid".
Proof.
  unfold Spec.ruleTable, Spec.fired, Spec.spfValid, Spec.dmarcValid.
  destruct (Spec.spfPresent spfTxt), (Spec.dmarcPresent dmarcTxt),
    soa as [|? ?], mxs as [|? ?], nss as [|? [|? ?]]; cbn; intros H;
  repeat (destruct H as [H|H]; [subst s; split; discriminate|]);
  contradiction.
Qed.

(** C1.  The risk score returned by [analyzeAttackSurface] lies in [0,100];
    it is the sum of the score deltas of the rules of the §4.2 table whose
    condition holds, clamped at 100 and not floored; and the issues emitted
    are those of exactly these rules, in table order. *)
Theorem C1_riskScore_is_clamped_sum_of_fired_rules :
  let result := analyzeAttackSurface net domain in
  let table :=
    Spec.ruleTable
      (records (fst (spfLookup net domain))) (records (fst (dmarcLookup net domain)))
      (records (fst (dnssecLookup net domain))) (records (fst (mxLookup net domain)))
      (records (fst (nsLookup net domain))) in
  0 <= riskScore result <= 100
  /\ riskScore result = Z.min (Spec.total (Spec.fired table)) 100
  /\ map id (issues result) = map Spec.slug (Spec.fired table).
Proof.
  intros result table.
  destruct (analyzeResults_table domain
              (fst (spfLookup net domain)) (fst (dmarcLookup net domain))
              (fst (dnssecLookup net domain)) (fst (mxLookup net domain))
              (fst (nsLookup net domain))) as (Hscore & Hids & _).
  fold table in Hscore, Hids.
  pose proof (fired_total_bounds
                (records (fst (spfLookup net domain))) (records (fst (dmarcLookup net domain)))
                (records (fst (dnssecLookup net domain))) (records (fst (mxLookup net domain)))
                (records (fst (nsLookup net domain)))) as Hb.
  fold table in Hb.
  subst result. unfold analyzeAttackSurface.
  rewrite Hscore. repeat split; try assumption; lia.
Qed.

(** C2.  SPF is reported present exactly when some record of the SPF TXT
    lookup has a value starting with [v=spf1], and valid exactly when
    present; likewise DMARC with the lower-case literal [v=dmarc1]; hence
    no issue [spf-invalid] or [dmarc-invalid] is ever emitted. *)
Theorem C2_spf_dmarc_present_iff_prefix_valid_iff_present :
  let result := analyzeAttackSurface net domain in
  let spfTxt := records (fst (spfLookup net domain)) in
  let dmarcTxt := records (fst (dmarcLookup net domain)) in
  (present (spf (checks result)) = true <->
     exists r, In r spfTxt /\ JS.startsWith (value r) "v=spf1" = true)
  /\ valid (spf (checks result)) = present (spf (checks result))
  /\ (present (dmarc (checks result)) = true <->
        exists r, In r dmarcTxt /\ JS.startsWith (value r) "v=dmarc1" = true)
  /\ valid (dmarc (checks result)) = present (dmarc (checks result))
  /\ (forall i, In i (issues result) ->
        id i <> "spf-invalid" /\ id i <> "dmarc-invalid").
Proof.
  intros result spfTxt dmarcTxt.
  destruct (analyzeResults_table domain
              (fst (spfLookup net domain)) (fst (dmarcLookup net domain))
              (fst (dnssecLookup net domain)) (fst (mxLookup net domain))
              (fst (nsLookup net domain)))
    as (_ & Hids & Hsp & Hsv & Hdp & Hdv).
  fold (analyzeAttackSurface net domain) in Hids, Hsp, Hsv, Hdp, Hdv.
  fold result in Hids, Hsp, Hsv, Hdp, Hdv.
  unfold Spec.spfValid in Hsv. unfold Spec.dmarcValid in Hdv.
  rewrite Hsv, Hdv, Hsp, Hdp.
  unfold Spec.spfPresent, Spec.dmarcPresent.
  split; [ apply existsb_exists | ].
  split; [ reflexivity | ].
  split; [ apply existsb_exists | ].
  split; [ reflexivity | ].
  intros i Hi.
  eapply fired_never_invalid.
  rewrite <- Hids. apply in_map. exact Hi.
Qed.

(** C4.  When each of the five lookups returns no record, the risk score is
    80 and the issues are the five "missing" issues in the order SPF, DMARC,
    DNSSEC, MX, NS. *)
Theorem C4_total_failure_scores_80_with_five_issues :
  records (fst (spfLookup net domain)) = [] ->
  records (fst (dmarcLookup net domain)) = [] ->
  records (fst (dnssecLookup net domain)) = [] ->
  records (fst (mxLookup net domain)) = [] ->
  records (fst (nsLookup net domain)) = [] ->
  let result := analyzeAttackSurface net domain in
  riskScore result = 80
  /\ issues result =
       [spf_missing; dmarc_missing; dnssec_missing; mx_missing; ns_insufficient]
  /\ map id (issues result) =
       ["spf-missing"; "dmarc-missing"; "dnssec-missing"; "mx-missing";
        "ns-insufficient"]
  /\ length (issues result) = 5%nat.
Proof.
  intros H1 H2 H3 H4 H5 result. subst result.
  unfold analyzeAttackSurface, analyzeResults.
  rewrite H1, H2, H3, H4, H5. cbn. repeat split; reflexivity.
Qed.

(** C9.  The risk score never exceeds 80: it is the unclamped sum of the
    fired deltas, so the final [Math.min(riskScore, 100)] changes nothing
    and no score from 81 to 100 is ever returned. *)
Theorem C9_riskScore_at_most_80_clamp_inert :
  let result := analyzeAttackSurface net domain in
  let table :=
    Spec.ruleTable
      (records (fst (spfLookup net domain))) (records (fst (dmarcLookup net domain)))
      (records (fst (dnssecLookup net domain))) (records (fst (mxLookup net domain)))
      (records (fst (nsLookup net domain))) in
  riskScore result <= 80
  /\ riskScore result = Spec.total (Spec.fired table)
  /\ Z.min (Spec.total (Spec.fired table)) 100 = Spec.total (Spec.fired table)
  /\ ~ (81 <= riskScore result <= 100).
Proof.
  intros result table.
  destruct (analyzeResults_table domain
              (fst (spfLookup net domain)) (fst (dmarcLookup net domain))
              (fst (dnssecLookup net domain)) (fst (mxLookup net domain))
              (fst (nsLookup net domain))) as (Hscore & _).
  fold table in Hscore.
  pose proof (fired_total_bounds
                (records (fst (spfLookup net domain))) (records (fst (dmarcLookup net domain)))
                (records (fst (dnssecLookup net domain))) (records (fst (mxLookup net domain)))
                (records (fst (nsLookup net domain)))) as Hb.
  fold table in Hb.
  subst result. unfold analyzeAttackSurface.
  rewrite Hscore. lia.
Qed.

End AnalyzeRun.

(** Total upstream failure, computed: every request is rejected. *)
Lemma C4_witness_all_requests_rejected :
  Dns.records (fst (Dns.spfLookup Examples.net_down "example.com")) = []
  /\ Dns.riskScore (Dns.analyzeAttackSurface Examples.net_down "example.com") = 80
  /\ map Dns.id (Dns.issues (Dns.analyzeAttackSurface Examples.net_down "example.com")) =
       ["spf-missing"; "dmarc-missing"; "dnssec-missing"; "mx-missing";
        "ns-insufficient"].
Proof.
  split; [reflexivity|].
  pose proof (C4_total_failure_scores_80_with_five_issues
                Examples.net_down "example.com"
                eq_refl eq_refl eq_refl eq_refl eq_refl) as H.
  cbv zeta in H. destruct H as (Hs & _ & Hi & _).
  split; [exact Hs | exact Hi].
Defined.

(** The SPF example of the specification, computed: one TXT value starting
    with [v=spf1] gives present and valid and no SPF issue; the upper-case
    DMARC value in the same answer does not count as a DMARC record. *)
Lemma C2_witness_spf_record :
  let result := Dns.analyzeAttackSurface Examples.net_txt "example.com" in
  Dns.present (Dns.spf (Dns.checks result)) = true
  /\ Dns.valid (Dns.spf (Dns.checks result)) = true
  /\ Dns.present (Dns.dmarc (Dns.checks result)) = false
  /\ map Dns.id (Dns.issues result) =
       ["dmarc-missing"; "dnssec-missing"; "mx-missing"; "ns-insufficient"].
Proof.
  intros result.
  destruct (C2_spf_dmarc_present_iff_prefix_valid_iff_present
              Examples.net_txt "example.com") as (Hp & Hv & _).
  fold result in Hp, Hv.
  assert (Hpres : Dns.present (Dns.spf (Dns.checks result)) = true).
  { apply Hp.
    exists (Dns.toRecord (Examples.answer 16 "v=spf1 include:_spf.example.com ~all")).
    split; [left; reflexivity | reflexivity]. }
  split; [exact Hpres|].
  split; [rewrite Hv; exact Hpres|].
  split; reflexivity.
Defined.

(* ================================================================== *)
(** ** lookupDNS *)
(* ================================================================== *)

Section Lookup.

Import Dns.

Variables (fetch : Fetch) (dom : string) (rtype : RecordType).

Let loop := lookupLoop fetch dom rtype.
Let req := Aux.requestTo dom rtype.

(** The requests already sent are kept, and do not influence the rest of the
    loop. *)
Lemma lookupLoop_sent servers : forall errors sent,
  loop servers errors sent =
  (fst (loop servers errors []), sent ++ snd (loop servers errors [])).
Proof.
  unfold loop.
  induction servers as [|server rest IH]; intros errors sent; simpl.
  - rewrite app_nil_r. reflexivity.
  - destruct (fetch _) as [thrown|status body].
    + rewrite (IH _ [_]); simpl. rewrite (IH _ (sent ++ [_])).
      rewrite <- app_assoc. reflexivity.
    + destruct (negb (ok status)).
      * rewrite (IH _ [_]); simpl. rewrite (IH _ (sent ++ [_])).
        rewrite <- app_assoc. reflexivity.
      * destruct body as [thrown|data].
        -- rewrite (IH _ [_]); simpl. rewrite (IH _ (sent ++ [_])).
           rewrite <- app_assoc. reflexivity.
        -- destruct (Status data =? 0), (Answer data), (Status data =? 3);
             simpl; try reflexivity;
             rewrite (IH _ [_]); simpl; rewrite (IH _ (sent ++ [_]));
             rewrite <- app_assoc; reflexivity.
Qed.

(** One turn of the loop, by the kind of outcome of its request. *)
Lemma lookupLoop_step server rest errors :
  loop (server :: rest) errors [] =
  if Aux.answered (fetch (req server)) then
    ({| domain := dom; recordType := rtype;
        records := match fetch (req server) with
                   | Response _ (Json data) =>
                       match Answer data with
                       | Some answers => map toRecord answers
                       | None => []
                       end
                   | _ => []
                   end;
        error := None |}, [req server])
  else if Aux.nxdomain (fetch (req server)) then
    ({| domain := dom; recordType := rtype; records := [];
        error := Some "NXDOMAIN - Domain does not exist" |}, [req server])
  else
    (fst (loop rest (errors ++ Aux.recorded server (fetch (req server))) []),
     req server :: snd (loop rest (errors ++ Aux.recorded server (fetch (req server))) [])).
Proof.
  unfold loop, req. cbn [lookupLoop]. unfold Aux.requestTo, Aux.answered, Aux.nxdomain, Aux.recorded.
  cbn [app].
  destruct (fetch _) as [thrown|status body].
  - cbn. apply lookupLoop_sent.
  - destruct (ok status); cbn [negb andb].
    + destruct body as [thrown|data].
      * apply lookupLoop_sent.
      * destruct (Status data =? 0) eqn:E0, (Answer data), (Status data =? 3) eqn:E3;
          cbn; try reflexivity; try (rewrite app_nil_r; apply lookupLoop_sent).
    + destruct body; apply lookupLoop_sent.
Qed.

(** The requests sent go to an initial segment of the server list, in list
    order. *)
Lemma lookupLoop_sent_initial servers : forall errors,
  exists k, snd (loop servers errors []) = map req (firstn k servers).
Proof.
  induction servers as [|server rest IH]; intros errors.
  - exists 0%nat. reflexivity.
  - rewrite lookupLoop_step.
    destruct (Aux.answered _); [exists 1%nat; reflexivity|].
    destruct (Aux.nxdomain _); [exists 1%nat; reflexivity|].
    destruct (IH (errors ++ Aux.recorded server (fetch (req server)))) as [k Hk].
    exists (S k). cbn [snd firstn map]. rewrite Hk. reflexivity.
Qed.

(** A request answered NXDOMAIN is the last one sent, and decides the
    result. *)
Lemma lookupLoop_nxdomain servers : forall errors request,
  In request (snd (loop servers errors [])) ->
  Aux.nxdomain (fetch request) = true ->
  (exists earlier, snd (loop servers errors []) = earlier ++ [request])
  /\ fst (loop servers errors []) =
       {| domain := dom; recordType := rtype; records := [];
          error := Some "NXDOMAIN - Domain does not exist" |}.
Proof.
  induction servers as [|server rest IH]; intros errors request Hin Hnx.
  - contradiction.
  - rewrite lookupLoop_step in Hin |- *.
    destruct (Aux.answered (fetch (req server))) eqn:Ea.
    + destruct Hin as [<-|[]].
      unfold Aux.answered, Aux.nxdomain in Ea, Hnx.
      destruct (fetch (req server)) as [|status [|data]]; try discriminate.
      apply andb_prop in Hnx as [_ H3]. apply Z.eqb_eq in H3.
      rewrite H3 in Ea. rewrite andb_false_r in Ea. discriminate.
    + destruct (Aux.nxdomain (fetch (req server))) eqn:En.
      * destruct Hin as [<-|[]]. split; [exists []; reflexivity | reflexivity].
      * cbn [fst snd] in Hin |- *. destruct Hin as [<-|Hin].
        -- congruence.
        -- destruct (IH _ _ Hin Hnx) as [[earlier He] Hr].
           split; [|exact Hr].
           exists (req server :: earlier). rewrite He. reflexivity.
Qed.

(** When no endpoint gives a usable answer, every endpoint is tried, and the
    error lists what [Aux.recorded] says of each. *)
Lemma lookupLoop_exhausted servers : forall errors,
  (forall server, In server servers -> Aux.usable (fetch (req server)) = false) ->
  loop servers errors [] =
  ({| domain := dom; recordType := rtype; records := [];
      error :=
        Some ("All DNS servers failed: " ++
              JS.join ", "
                (errors ++
                 flat_map (fun server => Aux.recorded server (fetch (req server)))
                   servers))%string |},
   map req servers).
Proof.
  induction servers as [|server rest IH]; intros errors Hall.
  - cbn. rewrite app_nil_r. reflexivity.
  - rewrite lookupLoop_step.
    pose proof (Hall server (or_introl eq_refl)) as Hu.
    unfold Aux.usable in Hu. apply orb_false_elim in Hu as [Ha Hn].
    rewrite Ha, Hn.
    rewrite IH by (intros s Hs; apply Hall; right; exact Hs).
    cbn [fst snd flat_map map]. rewrite <- app_assoc. reflexivity.
Qed.

End Lookup.

(** The loop only depends on what the upstream answers to the requests for
    this domain and record type. *)
Lemma lookupLoop_ext (f g : Dns.Fetch) (dom : string) (rtype : Dns.RecordType)
    (servers : list string) :
  (forall server, In server servers ->
     f (Aux.requestTo dom rtype server) = g (Aux.requestTo dom rtype server)) ->
  forall errors sent,
    Dns.lookupLoop f dom rtype servers errors sent =
    Dns.lookupLoop g dom rtype servers errors sent.
Proof.
  induction servers as [|server rest IH]; intros Hfg errors sent.
  - reflexivity.
  - cbn [Dns.lookupLoop].
    pose proof (Hfg server (or_introl eq_refl)) as H0.
    unfold Aux.requestTo in H0. rewrite H0.
    assert (Hrest : forall errors sent,
              Dns.lookupLoop f dom rtype rest errors sent =
              Dns.lookupLoop g dom rtype rest errors sent).
    { apply IH. intros s Hs. apply Hfg. right. exact Hs. }
    destruct (g _) as [thrown|status body]; [apply Hrest|].
    destruct (negb (Dns.ok status)); [apply Hrest|].
    destruct body as [thrown|data]; [apply Hrest|].
    destruct (Dns.Status data =? 0), (Dns.Answer data), (Dns.Status data =? 3);
      try reflexivity; apply Hrest.
Qed.

Lemma dmarc_name_differs (s : string) : s <> ("_dmarc." ++ s)%string.
Proof.
  intros H. apply (f_equal String.length) in H. cbn in H. lia.
Qed.

Lemma includes_NXDOMAIN :
  JS.includes "NXDOMAIN - Domain does not exist" "NXDOMAIN" = true.
Proof. reflexivity. Qed.

(** C5.  If an endpoint that [lookupDNS] contacted answered with [Status] 3,
    then that request is the last one sent (the requests sent are those to
    an initial segment of the endpoint list, ending with it), the records
    are empty and the error string contains [NXDOMAIN]. *)
Theorem C5_nxdomain_returns_at_once
    (fetch : Dns.Fetch) (dom : string) (rtype : Dns.RecordType)
    (request : Dns.Request) :
  In request (snd (Dns.lookupDNS_sent fetch dom rtype)) ->
  Aux.nxdomain (fetch request) = true ->
  let result := Dns.lookupDNS fetch dom rtype in
  let sent := snd (Dns.lookupDNS_sent fetch dom rtype) in
  (exists earlier, sent = earlier ++ [request])
  /\ (exists k, sent = map (Aux.requestTo dom rtype)
                         (firstn k Dns.DNS_OVER_HTTPS_SERVERS))
  /\ Dns.records result = []
  /\ exists e, Dns.error result = Some e /\ JS.includes e "NXDOMAIN" = true.
Proof.
  intros Hin Hnx result sent. subst result sent.
  unfold Dns.lookupDNS, Dns.lookupDNS_sent in *.
  destruct (lookupLoop_nxdomain fetch dom rtype _ _ _ Hin Hnx) as [Hlast Hres].
  split; [exact Hlast|].
  split; [apply lookupLoop_sent_initial|].
  rewrite Hres. split; [reflexivity|].
  eexists. split; [reflexivity | exact includes_NXDOMAIN].
Qed.

(** NXDOMAIN from the first endpoint, computed: one request is sent. *)
Lemma C5_witness_first_endpoint_nxdomain :
  let fetch := Examples.net_nxdomain 0%nat in
  let request := Aux.requestTo "example.com" Dns.A "https://dns.google/resolve" in
  snd (Dns.lookupDNS_sent fetch "example.com" Dns.A) = [request]
  /\ Dns.records (Dns.lookupDNS fetch "example.com" Dns.A) = []
  /\ exists e, Dns.error (Dns.lookupDNS fetch "example.com" Dns.A) = Some e
               /\ JS.includes e "NXDOMAIN" = true.
Proof.
  intros fetch request.
  split; [reflexivity|].
  destruct (C5_nxdomain_returns_at_once fetch "example.com" Dns.A request
              (or_introl eq_refl) eq_refl) as (_ & _ & Hrec & Herr).
  split; [exact Hrec | exact Herr].
Defined.

(** C3 (the code at the failing input).  Both endpoints answer HTTP 200 with
    [Status] 2: both are contacted, neither answer is usable, and the error
    of the result carries no per-endpoint message at all. *)
Theorem C3_other_status_leaves_no_message :
  let fetch := Examples.net_servfail 0%nat in
  let run := Dns.lookupDNS_sent fetch "example.com" Dns.A in
  snd run = map (Aux.requestTo "example.com" Dns.A) Dns.DNS_OVER_HTTPS_SERVERS
  /\ (forall request, Aux.usable (fetch request) = false)
  /\ (forall request, exists status data,
        fetch request = Dns.Response status (Dns.Json data)
        /\ Dns.ok status = true /\ Dns.Status data = 2)
  /\ Dns.records (fst run) = []
  /\ Dns.error (fst run) = Some "All DNS servers failed: ".
Proof.
  intros fetch run.
  split; [reflexivity|].
  split; [intros request; reflexivity|].
  split; [|split; reflexivity].
  intros request. eexists _, _. repeat split; reflexivity.
Qed.

(** X23.  What [lookupDNS] does when no endpoint gives a usable answer: every
    endpoint is contacted once, the records are empty, and the error is the
    fixed heading followed by the messages of the endpoints whose fetch was
    rejected, whose HTTP status was not 2xx or whose body could not be read,
    joined by a comma and a space. *)
Lemma lookupDNS_exhausted (fetch : Dns.Fetch) (dom : string) (rtype : Dns.RecordType) :
  (forall server, In server Dns.DNS_OVER_HTTPS_SERVERS ->
     Aux.usable (fetch (Aux.requestTo dom rtype server)) = false) ->
  Dns.lookupDNS_sent fetch dom rtype =
  ({| Dns.domain := dom; Dns.recordType := rtype; Dns.records := [];
      Dns.error :=
        Some ("All DNS servers failed: " ++
              JS.join ", "
                (flat_map
                   (fun server =>
                      Aux.recorded server (fetch (Aux.requestTo dom rtype server)))
                   Dns.DNS_OVER_HTTPS_SERVERS))%string |},
   map (Aux.requestTo dom rtype) Dns.DNS_OVER_HTTPS_SERVERS).
Proof.
  intros H. unfold Dns.lookupDNS_sent.
  rewrite (lookupLoop_exhausted fetch dom rtype _ [] H). reflexivity.
Qed.

(** C10.  The SPF and the DMARC sub-lookups of [analyzeAttackSurface] send
    the same requests: TXT queries (type 16) whose name is the input domain,
    never [_dmarc.] followed by the domain, starting with the same first
    request.  When the upstream answers both alike they return the same
    result, so both checks search one record list, SPF for [v=spf1] and
    DMARC for [v=dmarc1]. *)
Theorem C10_dmarc_lookup_is_the_spf_lookup (net : Dns.Network) (dom : string) :
  let result := Dns.analyzeAttackSurface net dom in
  let spfRun := Dns.spfLookup net dom in
  let dmarcRun := Dns.dmarcLookup net dom in
  (forall request, In request (snd spfRun) \/ In request (snd dmarcRun) ->
     Dns.req_name request = dom
     /\ Dns.req_name request <> ("_dmarc." ++ dom)%string
     /\ Dns.req_type request = 16)
  /\ hd_error (snd spfRun) = hd_error (snd dmarcRun)
  /\ ((forall server, In server Dns.DNS_OVER_HTTPS_SERVERS ->
         net 0%nat (Aux.requestTo dom Dns.TXT server) =
         net 1%nat (Aux.requestTo dom Dns.TXT server)) ->
      spfRun = dmarcRun)
  /\ Dns.present (Dns.spf (Dns.checks result)) =
       existsb (fun r => JS.startsWith (Dns.value r) "v=spf1")
         (Dns.records (fst spfRun))
  /\ Dns.present (Dns.dmarc (Dns.checks result)) =
       existsb (fun r => JS.startsWith (Dns.value r) "v=dmarc1")
         (Dns.records (fst dmarcRun)).
Proof.
  intros result spfRun dmarcRun.
  assert (Hreq : forall i request,
            In request (snd (Dns.lookupDNS_sent (net i) dom Dns.TXT)) ->
            Dns.req_name request = dom
            /\ Dns.req_name request <> ("_dmarc." ++ dom)%string
            /\ Dns.req_type request = 16).
  { intros i request Hin. unfold Dns.lookupDNS_sent in Hin.
    destruct (lookupLoop_sent_initial (net i) dom Dns.TXT
                Dns.DNS_OVER_HTTPS_SERVERS []) as [k Hk].
    rewrite Hk in Hin. apply in_map_iff in Hin as (server & <- & _).
    cbn. repeat split. apply dmarc_name_differs. }
  split; [intros request [H|H]; eapply Hreq; exact H|].
  split.
  { subst spfRun dmarcRun.
    unfold Dns.spfLookup, Dns.dmarcLookup, Dns.lookupDNS_sent, Dns.DNS_OVER_HTTPS_SERVERS.
    rewrite !lookupLoop_step.
    repeat match goal with |- context [if ?b then _ else _] => destruct b end;
      reflexivity. }
  split.
  { intros Hsame. subst spfRun dmarcRun.
    unfold Dns.spfLookup, Dns.dmarcLookup, Dns.lookupDNS_sent.
    apply lookupLoop_ext. exact Hsame. }
  destruct (analyzeResults_table dom
              (fst (Dns.spfLookup net dom)) (fst (Dns.dmarcLookup net dom))
              (fst (Dns.dnssecLookup net dom)) (fst (Dns.mxLookup net dom))
              (fst (Dns.nsLookup net dom)))
    as (_ & _ & Hsp & _ & Hdp & _).
  split; [exact Hsp | exact Hdp].
Qed.

(** The same upstream for both sub-lookups, computed: the two runs coincide,
    the SPF search succeeds on the shared list and the DMARC search fails. *)
Lemma C10_witness_shared_txt_answer :
  Dns.spfLookup Examples.net_txt "example.com" =
  Dns.dmarcLookup Examples.net_txt "example.com"
  /\ Dns.present (Dns.spf (Dns.checks
        (Dns.analyzeAttackSurface Examples.net_txt "example.com"))) = true
  /\ Dns.present (Dns.dmarc (Dns.checks
        (Dns.analyzeAttackSurface Examples.net_txt "example.com"))) = false.
Proof.
  destruct (C10_dmarc_lookup_is_the_spf_lookup Examples.net_txt "example.com")
    as (_ & _ & Hsame & Hspf & Hdmarc).
  split; [apply Hsame; intros server _; reflexivity|].
  split; [rewrite Hspf | rewrite Hdmarc]; reflexivity.
Defined.

(* ================================================================== *)
(** ** The infrastructure graph *)
(* ================================================================== *)

Section GraphFacts.

Import Dns.

Lemma pushRecords_map (root : string) (t : RecordType) (nodeType : Graph.NodeType)
    (recs : list DNSRecord) : forall nodes links,
  Graph.pushRecords root (JS.toLowerCase (Spec.symbol t)) nodeType (Spec.symbol t)
    recs (nodes, links) =
  (nodes ++ map (Spec.leafNode t nodeType) recs,
   links ++ map (Spec.leafLink root t) recs).
Proof.
  unfold Graph.pushRecords.
  induction recs as [|r recs IH]; intros nodes links; cbn [fold_left map].
  - rewrite !app_nil_r. reflexivity.
  - rewrite IH, <- !app_assoc. reflexivity.
Qed.

(** The imperative construction builds the graph of §4.3. *)
Lemma graphOfResults_spec (root : string)
    (aResult aaaaResult mxResult nsResult cnameResult : DNSLookupResult) :
  Graph.graphOfResults root aResult aaaaResult mxResult nsResult cnameResult =
  Spec.graph root (records aResult) (records aaaaResult) (records mxResult)
    (records nsResult) (records cnameResult).
Proof.
  unfold Graph.graphOfResults, Spec.graph.
  rewrite (pushRecords_map root A), (pushRecords_map root AAAA),
    (pushRecords_map root MX), (pushRecords_map root NS),
    (pushRecords_map root CNAME).
  cbn [app]. rewrite <- !app_assoc. reflexivity.
Qed.

Variables (net : Network) (dom : string).

Let aRecs := records (lookupDNS (net 0%nat) dom A).
Let aaaaRecs := records (lookupDNS (net 1%nat) dom AAAA).
Let mxRecs := records (lookupDNS (net 2%nat) dom MX).
Let nsRecs := records (lookupDNS (net 3%nat) dom NS).
Let cnameRecs := records (lookupDNS (net 4%nat) dom CNAME).

Lemma buildGraph_spec :
  Graph.buildGraph net dom = Spec.graph dom aRecs aaaaRecs mxRecs nsRecs cnameRecs.
Proof. unfold Graph.buildGraph. apply graphOfResults_spec. Qed.

Lemma filter_isDomain_leaves (t : RecordType) (nodeType : Graph.NodeType)
    (recs : list DNSRecord) :
  nodeType <> Graph.domain ->
  filter Aux.isDomain (map (Spec.leafNode t nodeType) recs) = [].
Proof.
  intros Hnt. induction recs as [|r recs IH]; [reflexivity|].
  cbn [map filter]. unfold Aux.isDomain at 1. cbn [Graph.type Spec.leafNode].
  destruct nodeType; try exact IH. contradiction.
Qed.

Lemma leafLink_source (root : string) (t : RecordType) (recs : list DNSRecord) :
  Forall (fun l => Graph.source l = root) (map (Spec.leafLink root t) recs).
Proof.
  apply Forall_forall. intros l Hl.
  apply in_map_iff in Hl as (r & <- & _). reflexivity.
Qed.

Lemma leafLink_targets (root : string) (t : RecordType) (nodeType : Graph.NodeType)
    (recs : list DNSRecord) :
  map Graph.target (map (Spec.leafLink root t) recs) =
  map Graph.id (map (Spec.leafNode t nodeType) recs).
Proof. rewrite !map_map. reflexivity. Qed.

End GraphFacts.

(** C6.  The graph built for a domain is the root node (the only node of
    type [domain], its id the domain) followed by one node per record of the
    A, AAAA, MX, NS and CNAME lookups with id [<lower-case type>-<value>],
    and one link per such node from the root to it; so two A records and one
    MX record give 4 nodes and 3 links. *)
Theorem C6_graph_is_a_star_over_the_records (net : Dns.Network) (dom : string) :
  let aRecs := Dns.records (Dns.lookupDNS (net 0%nat) dom Dns.A) in
  let aaaaRecs := Dns.records (Dns.lookupDNS (net 1%nat) dom Dns.AAAA) in
  let mxRecs := Dns.records (Dns.lookupDNS (net 2%nat) dom Dns.MX) in
  let nsRecs := Dns.records (Dns.lookupDNS (net 3%nat) dom Dns.NS) in
  let cnameRecs := Dns.records (Dns.lookupDNS (net 4%nat) dom Dns.CNAME) in
  let total := (length aRecs + length aaaaRecs + length mxRecs
                + length nsRecs + length cnameRecs)%nat in
  let nodes := fst (Graph.buildGraph net dom) in
  let links := snd (Graph.buildGraph net dom) in
  Graph.buildGraph net dom = Spec.graph dom aRecs aaaaRecs mxRecs nsRecs cnameRecs
  /\ filter Aux.isDomain nodes =
       [ {| Graph.id := dom; Graph.type := Graph.domain; Graph.label := dom;
            Graph.value := None |} ]
  /\ length nodes = (1 + total)%nat
  /\ length links = total
  /\ map Graph.target links = map Graph.id (tl nodes)
  /\ Forall (fun l => Graph.source l = dom) links
  /\ (length aRecs = 2%nat -> length mxRecs = 1%nat -> length aaaaRecs = 0%nat ->
      length nsRecs = 0%nat -> length cnameRecs = 0%nat ->
      length nodes = 4%nat /\ length links = 3%nat).
Proof.
  intros aRecs aaaaRecs mxRecs nsRecs cnameRecs total nodes links.
  pose proof (buildGraph_spec net dom) as Hspec.
  fold aRecs aaaaRecs mxRecs nsRecs cnameRecs in Hspec.
  assert (Hn : length nodes = (1 + total)%nat).
  { subst nodes total. rewrite Hspec. cbn [fst Spec.graph length].
    rewrite !length_app, !length_map. lia. }
  assert (Hl : length links = total).
  { subst links total. rewrite Hspec. cbn [snd Spec.graph].
    rewrite !length_app, !length_map. lia. }
  split; [exact Hspec|].
  split.
  { subst nodes. rewrite Hspec. cbn [fst Spec.graph filter Aux.isDomain Graph.type].
    rewrite !filter_app, !filter_isDomain_leaves by discriminate. reflexivity. }
  split; [exact Hn|]. split; [exact Hl|].
  split.
  { subst nodes links. rewrite Hspec. cbn [fst snd Spec.graph tl].
    rewrite !map_app.
    rewrite (leafLink_targets dom Dns.A Graph.a),
      (leafLink_targets dom Dns.AAAA Graph.aaaa),
      (leafLink_targets dom Dns.MX Graph.mx),
      (leafLink_targets dom Dns.NS Graph.ns),
      (leafLink_targets dom Dns.CNAME Graph.cname).
    reflexivity. }
  split.
  { subst links. rewrite Hspec. cbn [snd Spec.graph].
    repeat (apply Forall_app; split); apply leafLink_source. }
  intros Ha Hm Haaaa Hns Hc. subst total. lia.
Qed.

(** Two A records and one MX record, computed. *)
Lemma C6_witness_two_a_one_mx :
  let graph := Graph.buildGraph Examples.net_two_a_one_mx "example.com" in
  length (fst graph) = 4%nat /\ length (snd graph) = 3%nat
  /\ map Graph.id (fst graph) =
       ["example.com"; "a-192.0.2.1"; "a-192.0.2.2"; "mx-10 mail.example.com."]
  /\ map Graph.source (snd graph) = ["example.com"; "example.com"; "example.com"].
Proof.
  intros graph.
  destruct (C6_graph_is_a_star_over_the_records Examples.net_two_a_one_mx "example.com")
    as (_ & _ & _ & _ & _ & _ & Hcount).
  destruct (Hcount eq_refl eq_refl eq_refl eq_refl eq_refl) as [Hn Hl].
  split; [exact Hn|]. split; [exact Hl|]. split; reflexivity.
Defined.

(** *** When node ids are unique *)

Lemma NoDup_app_iff {T : Type} (l1 l2 : list T) :
  NoDup (l1 ++ l2) <-> NoDup l1 /\ NoDup l2 /\ Aux.disjoint l1 l2.
Proof.
  split.
  - intros H. split; [eapply NoDup_app_remove_r; exact H|].
    split; [eapply NoDup_app_remove_l; exact H|].
    induction l1 as [|x l1 IH]; intros y Hy; [contradiction|].
    cbn in H. apply NoDup_cons_iff in H as [Hx H].
    destruct Hy as [<-|Hy].
    + intros Hin. apply Hx, in_or_app. right. exact Hin.
    + apply IH; assumption.
  - intros (H1 & H2 & Hd). apply NoDup_app; assumption.
Qed.

Lemma disjoint_app_r {T : Type} (l l1 l2 : list T) :
  Aux.disjoint l (l1 ++ l2) <-> Aux.disjoint l l1 /\ Aux.disjoint l l2.
Proof.
  unfold Aux.disjoint. split.
  - intros H. split; intros x Hx Hin; apply (H x Hx), in_or_app; auto.
  - intros [H1 H2] x Hx Hin. apply in_app_or in Hin as [Hin|Hin];
      [exact (H1 x Hx Hin) | exact (H2 x Hx Hin)].
Qed.

Lemma prefixed_NoDup (p : string) (vs : list string) :
  NoDup (Aux.prefixed p vs) <-> NoDup vs.
Proof.
  unfold Aux.prefixed. split.
  - apply NoDup_map_inv.
  - assert (Hinj : forall v w, (p ++ "-" ++ v)%string = (p ++ "-" ++ w)%string -> v = w).
    { intros v w H. induction p as [|c p IH]; cbn in H.
      - injection H. auto.
      - injection H. exact IH. }
    induction 1 as [|v vs Hv _ IH]; cbn [map]; constructor; [|exact IH].
    intros Hin. apply in_map_iff in Hin as (w & Hw & Hin).
    apply Hinj in Hw. subst w. contradiction.
Qed.

(** Ids with prefixes that differ in their first character never meet. *)
Lemma prefixed_disjoint (c d : ascii) (p q : string) (vs ws : list string) :
  c <> d -> Aux.disjoint (Aux.prefixed (String c p) vs) (Aux.prefixed (String d q) ws).
Proof.
  intros Hcd x Hx Hy. unfold Aux.prefixed in Hx, Hy.
  apply in_map_iff in Hx as (v & <- & _).
  apply in_map_iff in Hy as (w & Hw & _).
  cbn in Hw. injection Hw. intros _ E. apply Hcd. symmetry. exact E.
Qed.

(** [a-] and [aaaa-] differ in their second character. *)
Lemma prefixed_a_aaaa (vs ws : list string) :
  Aux.disjoint (Aux.prefixed "a" vs) (Aux.prefixed "aaaa" ws).
Proof.
  intros x Hx Hy. unfold Aux.prefixed in Hx, Hy.
  apply in_map_iff in Hx as (v & <- & _).
  apply in_map_iff in Hy as (w & Hw & _).
  cbn in Hw. discriminate Hw.
Qed.

Lemma graph_ids (root : string) (aRecs aaaaRecs mxRecs nsRecs cnameRecs : list Dns.DNSRecord) :
  map Graph.id (fst (Spec.graph root aRecs aaaaRecs mxRecs nsRecs cnameRecs)) =
  root :: Aux.prefixed "a" (map Dns.value aRecs)
       ++ Aux.prefixed "aaaa" (map Dns.value aaaaRecs)
       ++ Aux.prefixed "mx" (map Dns.value mxRecs)
       ++ Aux.prefixed "ns" (map Dns.value nsRecs)
       ++ Aux.prefixed "cname" (map Dns.value cnameRecs).
Proof.
  unfold Aux.prefixed. cbn [fst Spec.graph map].
  rewrite !map_app, !map_map. reflexivity.
Qed.

(** C7, as the code has it.  The ids made from one value under the five
    record types are pairwise different.  The node ids of a graph are
    pairwise different exactly when no lookup returned the same value twice
    and no leaf id is the root domain. *)
Theorem C7_node_ids_unique_iff_values_unique (net : Dns.Network) (dom : string) :
  let aVals := Aux.values (Dns.lookupDNS (net 0%nat) dom Dns.A) in
  let aaaaVals := Aux.values (Dns.lookupDNS (net 1%nat) dom Dns.AAAA) in
  let mxVals := Aux.values (Dns.lookupDNS (net 2%nat) dom Dns.MX) in
  let nsVals := Aux.values (Dns.lookupDNS (net 3%nat) dom Dns.NS) in
  let cnameVals := Aux.values (Dns.lookupDNS (net 4%nat) dom Dns.CNAME) in
  let ids := map Graph.id (fst (Graph.buildGraph net dom)) in
  (forall v, NoDup (Aux.prefixed "a" [v] ++ Aux.prefixed "aaaa" [v]
                    ++ Aux.prefixed "mx" [v] ++ Aux.prefixed "ns" [v]
                    ++ Aux.prefixed "cname" [v]))
  /\ (NoDup ids <->
        NoDup aVals /\ NoDup aaaaVals /\ NoDup mxVals /\ NoDup nsVals
        /\ NoDup cnameVals /\ ~ In dom (tl ids)).
Proof.
  intros aVals aaaaVals mxVals nsVals cnameVals ids.
  assert (Hids : ids = dom :: Aux.prefixed "a" aVals ++ Aux.prefixed "aaaa" aaaaVals
                        ++ Aux.prefixed "mx" mxVals ++ Aux.prefixed "ns" nsVals
                        ++ Aux.prefixed "cname" cnameVals).
  { subst ids. rewrite buildGraph_spec. apply graph_ids. }
  assert (Hshape : forall va vb vc vd ve,
    NoDup (Aux.prefixed "a" va ++ Aux.prefixed "aaaa" vb ++ Aux.prefixed "mx" vc
           ++ Aux.prefixed "ns" vd ++ Aux.prefixed "cname" ve) <->
    NoDup va /\ NoDup vb /\ NoDup vc /\ NoDup vd /\ NoDup ve).
  { intros va vb vc vd ve.
    rewrite !NoDup_app_iff, !disjoint_app_r, !prefixed_NoDup.
    assert (D0 := prefixed_a_aaaa va vb).
    assert (D1 := prefixed_disjoint "a" "m" "" "x" va vc).
    assert (D2 := prefixed_disjoint "a" "n" "" "s" va vd).
    assert (D3 := prefixed_disjoint "a" "c" "" "name" va ve).
    assert (D4 := prefixed_disjoint "a" "m" "aaa" "x" vb vc).
    assert (D5 := prefixed_disjoint "a" "n" "aaa" "s" vb vd).
    assert (D6 := prefixed_disjoint "a" "c" "aaa" "name" vb ve).
    assert (D7 := prefixed_disjoint "m" "n" "x" "s" vc vd).
    assert (D8 := prefixed_disjoint "m" "c" "x" "name" vc ve).
    assert (D9 := prefixed_disjoint "n" "c" "s" "name" vd ve).
    assert (N1 : "a"%char <> "m"%char) by discriminate.
    assert (N2 : "a"%char <> "n"%char) by discriminate.
    assert (N3 : "a"%char <> "c"%char) by discriminate.
    assert (N4 : "m"%char <> "n"%char) by discriminate.
    assert (N5 : "m"%char <> "c"%char) by discriminate.
    assert (N6 : "n"%char <> "c"%char) by discriminate.
    tauto. }
  split.
  - intros v. apply Hshape.
    repeat split; repeat constructor; intros [].
  - rewrite Hids. cbn [tl]. rewrite NoDup_cons_iff, Hshape. tauto.
Qed.

(** C7 as stated fails: an answer that carries the same A record twice
    yields two nodes, at different positions, with one id. *)
Lemma C7_counterexample_repeated_value :
  let nodes := fst (Graph.buildGraph Examples.net_repeated_a "example.com") in
  (exists i j n m, i <> j /\ nth_error nodes i = Some n /\ nth_error nodes j = Some m
                   /\ Graph.id n = Graph.id m)
  /\ ~ NoDup (map Graph.id nodes).
Proof.
  intros nodes. split.
  - exists 1%nat, 2%nat. eexists _, _.
    split; [discriminate|]. repeat split; reflexivity.
  - intros H. apply NoDup_cons_iff in H as [_ H].
    apply NoDup_cons_iff in H as [H _]. apply H. left. reflexivity.
Qed.

(* ================================================================== *)
(** ** The lookup history *)
(* ================================================================== *)

Section HistoryFacts.

Import History.

Lemma RecordType_eqb_eq (x y : Dns.RecordType) :
  Dns.RecordType_eqb x y = true <-> x = y.
Proof. destruct x, y; cbn; split; intros H; try reflexivity; discriminate. Qed.

Lemma samePair_key (x y : HistoryItem) :
  Spec.samePair x y = true <-> Aux.key x = Aux.key y.
Proof.
  unfold Spec.samePair, Aux.key.
  rewrite andb_true_iff, String.eqb_eq, RecordType_eqb_eq.
  split; [intros [-> ->]; reflexivity | intros H; injection H; auto].
Qed.

Lemma differs_samePair (item h : HistoryItem) :
  differs item h = negb (Spec.samePair h item).
Proof. unfold differs, Spec.samePair. rewrite negb_andb. reflexivity. Qed.

Lemma filter_differs (item : HistoryItem) (l : list HistoryItem) :
  filter (differs item) l = filter (fun h => negb (Spec.samePair h item)) l.
Proof. apply filter_ext. intros h. apply differs_samePair. Qed.

Lemma key_not_in_filter (item : HistoryItem) (l : list HistoryItem) :
  ~ In (Aux.key item) (map Aux.key (filter (differs item) l)).
Proof.
  intros Hin. apply in_map_iff in Hin as (h & Hk & Hh).
  apply filter_In in Hh as [_ Hd].
  rewrite differs_samePair in Hd. apply negb_true_iff in Hd.
  apply samePair_key in Hk. congruence.
Qed.

Lemma NoDup_keys_filter (f : HistoryItem -> bool) (l : list HistoryItem) :
  NoDup (map Aux.key l) -> NoDup (map Aux.key (filter f l)).
Proof.
  induction l as [|h l IH]; cbn; intros H; [constructor|].
  apply NoDup_cons_iff in H as [Hh H].
  destruct (f h); cbn; [|auto].
  constructor; [|auto].
  intros Hin. apply Hh. apply in_map_iff in Hin as (h' & Hk & Hin).
  apply filter_In in Hin as [Hin _]. apply in_map_iff. exists h'. auto.
Qed.

Lemma NoDup_keys_firstn (n : nat) (l : list HistoryItem) :
  NoDup (map Aux.key l) -> NoDup (map Aux.key (firstn n l)).
Proof.
  revert n. induction l as [|h l IH]; intros [|n] H; cbn; try constructor.
  - cbn in H. apply NoDup_cons_iff in H as [Hh H].
    intros Hin. apply Hh. apply in_map_iff in Hin as (h' & Hk & Hin).
    apply in_map_iff. exists h'. split; [exact Hk|].
    rewrite <- (firstn_skipn n l). apply in_or_app. left. exact Hin.
  - cbn in H. apply NoDup_cons_iff in H as [_ H]. auto.
Qed.

(** One insertion keeps the history within 20 entries with distinct pairs. *)
Lemma updated_ok (item : HistoryItem) (l : list HistoryItem) :
  NoDup (map Aux.key l) -> Aux.historyOk (updated item l).
Proof.
  intros H. unfold Aux.historyOk, updated. split.
  - apply firstn_le_length.
  - apply NoDup_keys_firstn. cbn [map]. constructor.
    + apply key_not_in_filter.
    + apply NoDup_keys_filter, H.
Qed.

Lemma initial_ok : Aux.stateOk initial.
Proof.
  split; [split; cbn; [lia | constructor] | discriminate].
Qed.

Lemma saveHistory_ok (item : HistoryItem) (st : State) :
  Aux.stateOk st -> Aux.stateOk (saveHistory item st).
Proof.
  intros [[Hlen Hnd] Hst]. unfold saveHistory. split; cbn [history stored].
  - apply updated_ok, Hnd.
  - intros saved [= <-]. apply updated_ok, Hnd.
Qed.

Lemma nth_ok (n : nat) (l : list State) :
  Forall Aux.stateOk l -> Aux.stateOk (nth n l initial).
Proof.
  intros H. destruct (Nat.lt_ge_cases n (length l)) as [Hn|Hn].
  - apply (proj1 (Forall_forall _ _) H), nth_In, Hn.
  - rewrite nth_overflow by exact Hn. apply initial_ok.
Qed.

Lemma current_ok (t : Tool) :
  Forall Aux.stateOk (past t) -> Aux.stateOk (current t).
Proof.
  intros H. unfold current. destruct (past t) as [|st l]; cbn [hd].
  - apply initial_ok.
  - apply Forall_inv in H. exact H.
Qed.

(** Whatever state a lookup in flight holds on to, every state the tool
    passes through is well formed. *)
Lemma step_ok (t : Tool) (act : Action) :
  Forall Aux.stateOk (past t) -> Forall Aux.stateOk (past (step t act)).
Proof.
  intros H. pose proof (current_ok t H) as Hcur.
  destruct act as [back item| |]; cbn [step past]; constructor; try exact H.
  - pose proof (saveHistory_ok item (captured back t) (nth_ok _ _ H)) as Hs.
    destruct (alive back t); [exact Hs|].
    split; [exact (proj1 Hcur) | exact (proj2 Hs)].
  - split; [split; cbn; [lia | constructor] | discriminate].
  - destruct Hcur as [Hh Hst].
    unfold mount. destruct (stored (current t)) as [saved|] eqn:E;
      split; cbn [history stored].
    + apply Hst. reflexivity.
    + intros saved' [= <-]. apply Hst. reflexivity.
    + split; cbn; [lia | constructor].
    + discriminate.
Qed.

Lemma run_ok (acts : list Action) : Forall Aux.stateOk (past (run acts)).
Proof.
  unfold run.
  assert (H0 : Forall Aux.stateOk (past start))
    by (constructor; [apply initial_ok | constructor]).
  revert H0. generalize start.
  induction acts as [|act acts IH]; intros t Ht; cbn [fold_left].
  - exact Ht.
  - apply IH, step_ok, Ht.
Qed.

(** *** Insertions only: the history is the specified list *)

Lemma newestFirst_NoDup (l : list HistoryItem) :
  NoDup (map Aux.key (Spec.newestFirst l)).
Proof.
  induction l as [|x l IH]; cbn [Spec.newestFirst map]; constructor.
  - rewrite <- filter_differs. apply key_not_in_filter.
  - apply NoDup_keys_filter, IH.
Qed.

Lemma filter_none {T : Type} (f : T -> bool) (l : list T) :
  (forall a, In a l -> f a = false) -> filter f l = [].
Proof.
  induction l as [|a l IH]; intros H; [reflexivity|].
  cbn [filter]. rewrite (H a (or_introl eq_refl)).
  apply IH. intros b Hb. apply H. right. exact Hb.
Qed.

(** Among entries with distinct pairs at most one has the pair of [x]. *)
Lemma at_most_one_samePair (x : HistoryItem) (l : list HistoryItem) :
  NoDup (map Aux.key l) ->
  (length (filter (fun h => Spec.samePair h x) l) <= 1)%nat.
Proof.
  induction l as [|h l IH]; cbn [map filter]; intros H; [cbn; lia|].
  apply NoDup_cons_iff in H as [Hh H].
  destruct (Spec.samePair h x) eqn:E; [|auto].
  replace (filter (fun h => Spec.samePair h x) l) with (@nil HistoryItem);
    [cbn; lia|].
  symmetry. apply filter_none.
  intros h' Hin. destruct (Spec.samePair h' x) eqn:E'; [|reflexivity].
  exfalso. apply Hh. apply samePair_key in E, E'.
  apply in_map_iff. exists h'. split; [congruence | exact Hin].
Qed.

(** Cutting a list after [n+1] entries before dropping at most one entry
    does not change the first [n] entries that remain. *)
Lemma firstn_filter_firstn {T : Type} (p q : T -> bool) (l : list T) :
  (forall h, q h = negb (p h)) ->
  forall n, (length (filter q l) <= 1)%nat ->
  firstn n (filter p (firstn (S n) l)) = firstn n (filter p l).
Proof.
  intros Hq. induction l as [|h l IH]; intros n Hlen; [reflexivity|].
  cbn [firstn filter] in *. rewrite Hq in Hlen.
  destruct (p h) eqn:E; cbn [negb] in Hlen.
  - destruct n as [|n]; [reflexivity|].
    cbn [firstn]. f_equal. apply IH. exact Hlen.
  - cbn [length] in Hlen.
    assert (Hnil : filter q l = []) by (apply length_zero_iff_nil; lia).
    assert (Hall : forall a, In a l -> p a = true).
    { intros a Ha. destruct (p a) eqn:Ea; [reflexivity|].
      assert (In a (filter q l)) as Hin
        by (apply filter_In; split; [exact Ha | rewrite Hq, Ea; reflexivity]).
      rewrite Hnil in Hin. contradiction. }
    rewrite !forallb_filter_id.
    + rewrite firstn_firstn, Nat.min_id. reflexivity.
    + apply forallb_forall. exact Hall.
    + apply forallb_forall. intros a Ha. apply Hall.
      rewrite <- (firstn_skipn n l). apply in_or_app. left. exact Ha.
Qed.

Lemma run_app (acts : list Action) (act : Action) :
  run (acts ++ [act]) = step (run acts) act.
Proof. unfold run. rewrite fold_left_app. reflexivity. Qed.

(** A lookup that ends before anything else happens saves over the current
    state. *)
Lemma step_save_now (t : Tool) (item : HistoryItem) :
  current (step t (Save 0 item)) = saveHistory item (current t).
Proof.
  cbn [step]. unfold current at 1. cbn [past hd].
  unfold alive, captured, reach. cbn [Nat.min Nat.leb].
  unfold current. destruct (past t); reflexivity.
Qed.

(** After lookups that ended one at a time, the history is the list of §3. *)
Lemma run_saves (items : list HistoryItem) :
  history (current (run (map (Save 0) items))) = Spec.expectedHistory items.
Proof.
  induction items as [|x items IH] using rev_ind; [reflexivity|].
  rewrite map_app. cbn [map]. rewrite run_app, step_save_now.
  cbn [saveHistory history].
  rewrite IH. unfold Spec.expectedHistory, updated.
  rewrite rev_app_distr. cbn [rev app Spec.newestFirst].
  change 20%nat with (S 19). rewrite !firstn_cons. f_equal.
  rewrite !filter_differs.
  apply firstn_filter_firstn with (q := fun h => Spec.samePair h x).
  - intros h. rewrite negb_involutive. reflexivity.
  - apply at_most_one_samePair, newestFirst_NoDup.
Qed.

Lemma newestFirst_distinct (l : list HistoryItem) :
  NoDup (map Aux.key l) -> Spec.newestFirst l = l.
Proof.
  induction l as [|x l IH]; cbn [map Spec.newestFirst]; intros H; [reflexivity|].
  apply NoDup_cons_iff in H as [Hx H]. rewrite (IH H). f_equal.
  apply forallb_filter_id, forallb_forall. intros h Hin.
  apply negb_true_iff. destruct (Spec.samePair h x) eqn:E; [|reflexivity].
  exfalso. apply Hx. apply samePair_key in E.
  apply in_map_iff. exists h. split; [exact E | exact Hin].
Qed.

End HistoryFacts.

(** C8.  Two lookups in flight at once (the second started with Ctrl+Enter
    before the first has ended) both save over the history that was on
    screen when they were started, so the entry of the first is lost, where
    the specification keeps both.  With 21 lookups of distinct pairs of which
    the last was started before the one before it ended, the 20 entries kept
    contain the oldest and lack the second newest.  A history cleared while a
    lookup is in flight is back, with the new entry, when the lookup ends. *)
Theorem C8_overlapping_lookups_lose_an_entry :
  (let first := Examples.entry 0 Dns.A in
   let second := Examples.entry 1 Dns.A in
   History.history
     (History.current (History.run [History.Save 0 first; History.Save 1 second]))
   = [second]
   /\ Spec.expectedHistory [first; second] = [second; first])
  /\ (let acts := map (History.Save 0) (firstn 20 Examples.entries21)
                  ++ [History.Save 1 (Examples.entry 20 Dns.A)] in
      let kept := History.history (History.current (History.run acts)) in
      kept = Examples.entry 20 Dns.A :: rev (firstn 19 Examples.entries21)
      /\ length kept = 20%nat
      /\ In (Examples.entry 0 Dns.A) kept
      /\ ~ In (Examples.entry 19 Dns.A) kept
      /\ Spec.expectedHistory Examples.entries21 = rev (tl Examples.entries21))
  /\ (let first := Examples.entry 0 Dns.A in
      let second := Examples.entry 1 Dns.A in
      let st := History.current
                  (History.run [History.Save 0 first; History.Clear;
                                History.Save 1 second]) in
      History.history st = [second; first]
      /\ History.stored st = Some [second; first]).
Proof.
  split; [|split].
  - split; reflexivity.
  - cbv zeta. split; [reflexivity|]. split; [reflexivity|].
    split; [vm_compute; tauto|]. split; [|reflexivity].
    vm_compute. intuition discriminate.
  - split; reflexivity.
Qed.

(** X25.  Whatever lookups overlap, and whenever the history is cleared or
    the component mounted anew, the history has at most 20 entries with
    pairwise distinct [(domain, recordType)] pairs, in memory and in storage.
    A save, over whatever history it captured, puts the new entry at the
    front, leaves no other entry with its pair, and stores what it shows. *)
Theorem history_well_formed_in_every_interleaving :
  (forall acts,
     let st := History.current (History.run acts) in
     (length (History.history st) <= 20)%nat
     /\ NoDup (map Aux.key (History.history st))
     /\ forall saved, History.stored st = Some saved -> Aux.historyOk saved)
  /\ (forall st item,
        let st' := History.saveHistory item st in
        hd_error (History.history st') = Some item
        /\ filter (fun h => Spec.samePair h item) (History.history st') = [item]
        /\ History.stored st' = Some (History.history st')).
Proof.
  split.
  - intros acts st.
    destruct (current_ok _ (run_ok acts)) as [[Hlen Hnd] Hst].
    split; [exact Hlen|]. split; [exact Hnd | exact Hst].
  - intros st item st'. subst st'. unfold History.saveHistory, History.updated.
    cbn [History.history History.stored].
    change 20%nat with (S 19). rewrite firstn_cons.
    split; [reflexivity|]. split; [|reflexivity].
    cbn [filter].
    assert (Hself : Spec.samePair item item = true)
      by (apply samePair_key; reflexivity).
    rewrite Hself. f_equal. apply filter_none.
    intros h Hin.
    assert (Hin' : In h (filter (History.differs item) (History.history st))).
    { rewrite <- (firstn_skipn 19 (filter _ _)). apply in_or_app. left. exact Hin. }
    apply filter_In in Hin' as [_ Hd].
    rewrite differs_samePair in Hd. apply negb_true_iff. exact Hd.
Qed.

(** X26.  When every lookup ends before the next one is started and nothing
    else touches the history, the history is the list of the distinct pairs,
    newest first, each with its newest entry, cut at 20; 21 such lookups of
    distinct pairs leave the last 20, newest first. *)
Theorem history_of_lookups_one_at_a_time :
  (forall items,
     History.history (History.current (History.run (map (History.Save 0) items)))
     = Spec.expectedHistory items)
  /\ (forall items,
        length items = 21%nat -> NoDup (map Aux.key items) ->
        History.history (History.current (History.run (map (History.Save 0) items)))
        = rev (tl items)).
Proof.
  split.
  - exact run_saves.
  - intros items Hlen Hnd. rewrite run_saves. unfold Spec.expectedHistory.
    rewrite newestFirst_distinct by (rewrite map_rev; apply NoDup_rev, Hnd).
    destruct items as [|x items]; [discriminate|].
    cbn [rev tl]. cbn [length] in Hlen.
    rewrite firstn_app, firstn_all2 by (rewrite length_rev; lia).
    rewrite length_rev.
    replace (20 - length items)%nat with 0%nat by lia.
    cbn [firstn]. apply app_nil_r.
Qed.

(** Twenty-one lookups of different domains, then the oldest looked up
    again, computed. *)
Lemma history_of_lookups_one_at_a_time_witness :
  History.history
    (History.current (History.run (map (History.Save 0) Examples.entries21)))
  = rev (tl Examples.entries21)
  /\ (let again := {| History.id := "1700000000099"; History.domain := "a.example.com";
                       History.recordType := Dns.A; History.timestamp := 1700000000099 |} in
      History.history
        (History.current
           (History.run (map (History.Save 0)
                           [Examples.entry 0 Dns.A; Examples.entry 1 Dns.A; again])))
      = [again; Examples.entry 1 Dns.A]).
Proof.
  destruct history_of_lookups_one_at_a_time as (Hspec & H21).
  split.
  - apply H21; [reflexivity|].
    vm_compute. repeat constructor; cbn; intuition discriminate.
  - intros again. rewrite Hspec. reflexivity.
Defined.

(* ================================================================== *)
(** ** More on lookupDNS *)
(* ================================================================== *)

Section LookupMore.

Import Dns.

Variables (fetch : Fetch) (dom : string) (rtype : RecordType).

Let loop := lookupLoop fetch dom rtype.
Let req := Aux.requestTo dom rtype.

(** The loop ends in one of two ways: on an answered request, which is the
    last one sent and gives the records, or with no record and a non-empty
    error. *)
Lemma lookupLoop_outcome servers : forall errors,
  Dns.domain (fst (loop servers errors [])) = dom
  /\ Dns.recordType (fst (loop servers errors [])) = rtype
  /\ ((exists earlier server status data answers,
         snd (loop servers errors []) = earlier ++ [req server]
         /\ fetch (req server) = Response status (Json data)
         /\ ok status = true /\ Status data = 0 /\ Answer data = Some answers
         /\ error (fst (loop servers errors [])) = None
         /\ records (fst (loop servers errors [])) = map toRecord answers)
      \/ (records (fst (loop servers errors [])) = []
          /\ exists e, error (fst (loop servers errors [])) = Some e /\ e <> ""%string)).
Proof.
  unfold loop, req.
  induction servers as [|server rest IH]; intros errors.
  - cbn. repeat split. right. split; [reflexivity|].
    eexists. split; [reflexivity | discriminate].
  - rewrite lookupLoop_step.
    destruct (Aux.answered (fetch (Aux.requestTo dom rtype server))) eqn:Ea.
    + cbn [fst snd Dns.domain Dns.recordType records error]. repeat split. left.
      unfold Aux.answered in Ea.
      destruct (fetch (Aux.requestTo dom rtype server)) as [|status [|data]] eqn:Ef; try discriminate.
      apply andb_prop in Ea as [Ea Hans]. apply andb_prop in Ea as [Hok H0].
      apply Z.eqb_eq in H0.
      destruct (Answer data) as [answers|] eqn:EA; [|discriminate].
      exists [], server, status, data, answers. repeat split; assumption.
    + destruct (Aux.nxdomain (fetch (Aux.requestTo dom rtype server))) eqn:En.
      * cbn. repeat split. right. split; [reflexivity|].
        eexists. split; [reflexivity | discriminate].
      * cbn [fst snd].
        destruct (IH (errors ++ Aux.recorded server (fetch (Aux.requestTo dom rtype server))))
          as (Hd & Ht & Hcases).
        split; [exact Hd|]. split; [exact Ht|].
        destruct Hcases as [(earlier & s & status & data & answers & Hs & Hrest)|Hfail];
          [left | right; exact Hfail].
        exists (Aux.requestTo dom rtype server :: earlier), s, status, data, answers.
        rewrite Hs. split; [reflexivity | exact Hrest].
Qed.

(** Endpoints that give no usable answer are passed over. *)
Lemma lookupLoop_skip pre : forall rest errors,
  (forall s, In s pre -> Aux.usable (fetch (req s)) = false) ->
  exists errors',
    loop (pre ++ rest) errors [] =
    (fst (loop rest errors' []), map req pre ++ snd (loop rest errors' [])).
Proof.
  unfold loop, req.
  induction pre as [|s pre IH]; intros rest errors Hpre.
  - exists errors. cbn [app map].
    destruct (lookupLoop fetch dom rtype rest errors []); reflexivity.
  - cbn [app]. rewrite lookupLoop_step.
    pose proof (Hpre s (or_introl eq_refl)) as Hu.
    unfold Aux.usable in Hu. apply orb_false_elim in Hu as [Ha Hn].
    rewrite Ha, Hn.
    destruct (IH rest (errors ++ Aux.recorded s (fetch (Aux.requestTo dom rtype s))))
      as [errors' He]; [intros x Hx; apply Hpre; right; exact Hx|].
    exists errors'. rewrite He. reflexivity.
Qed.

End LookupMore.

(** X1.  A lookup result echoes the queried domain and record type, and it
    either has no error and the records of the answer to the last request
    sent, or has no record and a non-empty error string. *)
Theorem lookupDNS_records_or_error
    (fetch : Dns.Fetch) (dom : string) (rtype : Dns.RecordType) :
  let result := Dns.lookupDNS fetch dom rtype in
  let sent := snd (Dns.lookupDNS_sent fetch dom rtype) in
  Dns.domain result = dom
  /\ Dns.recordType result = rtype
  /\ ((exists earlier server status data answers,
         sent = earlier ++ [Aux.requestTo dom rtype server]
         /\ fetch (Aux.requestTo dom rtype server) = Dns.Response status (Dns.Json data)
         /\ Dns.ok status = true /\ Dns.Status data = 0
         /\ Dns.Answer data = Some answers
         /\ Dns.error result = None
         /\ Dns.records result = map Dns.toRecord answers)
      \/ (Dns.records result = []
          /\ exists e, Dns.error result = Some e /\ e <> ""%string)).
Proof.
  intros result sent. subst result sent.
  unfold Dns.lookupDNS, Dns.lookupDNS_sent.
  apply lookupLoop_outcome.
Qed.

(** X2.  The first endpoint that answers decides the result: when the
    endpoints before it give no usable answer and it answers with [Status] 0
    and an [Answer] array, the records are that array converted, there is no
    error, and no later endpoint is contacted. *)
Theorem lookupDNS_first_answer_wins
    (fetch : Dns.Fetch) (dom : string) (rtype : Dns.RecordType)
    (pre post : list string) (server : string)
    (status : Z) (data : Dns.DoHData) (answers : list Dns.DNSAnswer) :
  Dns.DNS_OVER_HTTPS_SERVERS = pre ++ server :: post ->
  (forall s, In s pre -> Aux.usable (fetch (Aux.requestTo dom rtype s)) = false) ->
  fetch (Aux.requestTo dom rtype server) = Dns.Response status (Dns.Json data) ->
  Dns.ok status = true ->
  Dns.Status data = 0 ->
  Dns.Answer data = Some answers ->
  Dns.lookupDNS_sent fetch dom rtype =
  ({| Dns.domain := dom; Dns.recordType := rtype;
      Dns.records := map Dns.toRecord answers; Dns.error := None |},
   map (Aux.requestTo dom rtype) (pre ++ [server])).
Proof.
  intros Hservers Hpre Hfetch Hok H0 HA.
  unfold Dns.lookupDNS_sent. rewrite Hservers.
  destruct (lookupLoop_skip fetch dom rtype pre (server :: post) [] Hpre)
    as [errors' He].
  rewrite He, lookupLoop_step.
  unfold Aux.answered. rewrite Hfetch, Hok, H0, HA. cbn [andb Z.eqb Dns.truthy fst snd].
  rewrite map_app. reflexivity.
Qed.

(** The specification's fallback example, computed: the first endpoint
    fails, the second returns one A record. *)
Lemma lookupDNS_first_answer_wins_witness :
  Dns.lookupDNS_sent Samples.fetch_second_answers "x" Dns.A =
  ({| Dns.domain := "x"; Dns.recordType := Dns.A;
      Dns.records := [ {| Dns.type := "A"; Dns.name := "x"; Dns.value := "1.2.3.4";
                          Dns.ttl := 300; Dns.priority := None |} ];
      Dns.error := None |},
   [ Aux.requestTo "x" Dns.A "https://dns.google/resolve";
     Aux.requestTo "x" Dns.A "https://cloudflare-dns.com/dns-query" ]).
Proof.
  assert (Hpre : forall s, In s ["https://dns.google/resolve"] ->
            Aux.usable (Samples.fetch_second_answers (Aux.requestTo "x" Dns.A s)) = false)
    by (intros s [<-|[]]; reflexivity).
  exact (lookupDNS_first_answer_wins Samples.fetch_second_answers "x" Dns.A
           ["https://dns.google/resolve"] [] "https://cloudflare-dns.com/dns-query"
           200
           {| Dns.Status := 0;
              Dns.Answer := Some [ {| Dns.ans_name := "x"; Dns.ans_type := 1;
                                      Dns.ans_TTL := 300; Dns.ans_data := "1.2.3.4" |} ] |}
           [ {| Dns.ans_name := "x"; Dns.ans_type := 1;
                Dns.ans_TTL := 300; Dns.ans_data := "1.2.3.4" |} ]
           eq_refl Hpre eq_refl eq_refl eq_refl eq_refl).
Defined.

(** X3.  A lookup contacts the first endpoint, and the second only after
    the first: the requests sent go to the first one or two endpoints in
    list order, each endpoint at most once, all for the queried name and the
    numeric code of the record type. *)
Theorem lookupDNS_one_attempt_per_endpoint
    (fetch : Dns.Fetch) (dom : string) (rtype : Dns.RecordType) :
  let sent := snd (Dns.lookupDNS_sent fetch dom rtype) in
  (exists k, (1 <= k <= 2)%nat
             /\ sent = map (Aux.requestTo dom rtype)
                         (firstn k Dns.DNS_OVER_HTTPS_SERVERS))
  /\ NoDup sent
  /\ Forall (fun request => Dns.req_name request = dom
                            /\ Dns.req_type request = Dns.typeCode rtype) sent.
Proof.
  intros sent.
  assert (Hk : exists k, (1 <= k <= 2)%nat
                 /\ sent = map (Aux.requestTo dom rtype)
                             (firstn k Dns.DNS_OVER_HTTPS_SERVERS)).
  { subst sent. unfold Dns.lookupDNS_sent, Dns.DNS_OVER_HTTPS_SERVERS.
    rewrite lookupLoop_step.
    destruct (Aux.answered _); [exists 1%nat; split; [lia | reflexivity]|].
    destruct (Aux.nxdomain _); [exists 1%nat; split; [lia | reflexivity]|].
    rewrite lookupLoop_step.
    destruct (Aux.answered _); [exists 2%nat; split; [lia | reflexivity]|].
    destruct (Aux.nxdomain _); exists 2%nat; (split; [lia | reflexivity]). }
  split; [exact Hk|].
  destruct Hk as (k & Hk & ->).
  split.
  - destruct k as [|[|[|k]]]; try lia; cbn.
    + repeat constructor. intros [].
    + repeat constructor; cbn; [|intros []].
      intros [H|[]]. discriminate H.
  - apply Forall_forall. intros request Hin.
    apply in_map_iff in Hin as (server & <- & _). split; reflexivity.
Qed.

(** Both endpoints unusable, computed: the error names each failure. *)
Lemma lookupDNS_exhausted_witness :
  Dns.lookupDNS Samples.fetch_unavailable "example.com" Dns.MX =
  {| Dns.domain := "example.com"; Dns.recordType := Dns.MX; Dns.records := [];
     Dns.error :=
       Some "All DNS servers failed: Server https://dns.google/resolve returned 503, Server https://cloudflare-dns.com/dns-query failed: TypeError: Failed to fetch" |}.
Proof.
  unfold Dns.lookupDNS.
  rewrite (lookupDNS_exhausted Samples.fetch_unavailable "example.com" Dns.MX).
  - reflexivity.
  - intros server [<-|[<-|[]]]; reflexivity.
Defined.

(** X4.  The type name given to a record inverts the table of type codes:
    an answer whose numeric type is the code of a record type gets that
    type's name, any other numeric type gets [UNKNOWN]; and no two record
    types share a code. *)
Theorem toRecord_type_inverts_typeCode (answer : Dns.DNSAnswer) :
  (forall t, Dns.ans_type answer = Dns.typeCode t ->
             Dns.type (Dns.toRecord answer) = Spec.symbol t)
  /\ ((forall t, Dns.ans_type answer <> Dns.typeCode t) ->
      Dns.type (Dns.toRecord answer) = "UNKNOWN")
  /\ (forall t u, Dns.typeCode t = Dns.typeCode u -> t = u).
Proof.
  split; [|split].
  - intros t H. unfold Dns.toRecord. cbn [Dns.type]. rewrite H.
    destruct t; reflexivity.
  - intros H. unfold Dns.toRecord. cbn [Dns.type].
    repeat match goal with
    | |- context [?x =? ?c] =>
        destruct (Z.eqb_spec x c) as [E|_];
        [ exfalso;
          first [ apply (H Dns.A); exact E | apply (H Dns.AAAA); exact E
                | apply (H Dns.MX); exact E | apply (H Dns.TXT); exact E
                | apply (H Dns.CNAME); exact E | apply (H Dns.NS); exact E
                | apply (H Dns.SOA); exact E | apply (H Dns.PTR); exact E
                | apply (H Dns.SRV); exact E ] | ]
    end.
    reflexivity.
  - intros t u H. destruct t, u; cbn in H; try reflexivity; discriminate H.
Qed.

(** An SRV answer and an answer of an unlisted type (HTTPS, 65), computed. *)
Lemma toRecord_type_inverts_typeCode_witness :
  Dns.type (Dns.toRecord (Examples.answer 33 "0 5 5060 sip.example.com.")) = "SRV"
  /\ Dns.type (Dns.toRecord (Examples.answer 65 "1 . alpn=h2")) = "UNKNOWN".
Proof.
  split.
  - apply (proj1 (toRecord_type_inverts_typeCode _) Dns.SRV). reflexivity.
  - apply (proj1 (proj2 (toRecord_type_inverts_typeCode _))).
    intros t H. destruct t; discriminate H.
Defined.

(* ================================================================== *)
(** ** The analysis result and its display *)
(* ================================================================== *)

(** Every issue of an analysis is one of the seven fixed issue objects. *)
Lemma analyzeResults_issues_known (dom : string)
    (r1 r2 r3 r4 r5 : Dns.DNSLookupResult) (i : Dns.AttackSurfaceIssue) :
  In i (Dns.issues (Dns.analyzeResults dom r1 r2 r3 r4 r5)) ->
  In i [ Dns.spf_missing; Dns.spf_invalid; Dns.dmarc_missing; Dns.dmarc_invalid;
         Dns.dnssec_missing; Dns.mx_missing; Dns.ns_insufficient ].
Proof.
  unfold Dns.analyzeResults.
  cbn [Dns.present Dns.valid Dns.dnssec_present Dns.rs_present Dns.rs_records].
  repeat match goal with
  | |- context [if ?b then _ else _] => destruct b
  end;
  cbn [Dns.issues app]; intros H;
  repeat (destruct H as [<-|H]; [cbn; tauto|]); contradiction.
Qed.

(** X5.  The issue ids of an analysis are pairwise different and at most
    five; every issue adds between 5 and 25 to the score, so the score is 0
    exactly when no issue is reported; and the score is a multiple of 5. *)
Theorem analysis_issue_ids_distinct (net : Dns.Network) (dom : string) :
  let result := Dns.analyzeAttackSurface net dom in
  NoDup (map Dns.id (Dns.issues result))
  /\ (length (Dns.issues result) <= 5)%nat
  /\ 5 * Z.of_nat (length (Dns.issues result)) <= Dns.riskScore result
       <= 25 * Z.of_nat (length (Dns.issues result))
  /\ (Dns.riskScore result = 0 <-> Dns.issues result = [])
  /\ Dns.riskScore result mod 5 = 0.
Proof.
  intros result.
  destruct (analyzeResults_table dom
              (fst (Dns.spfLookup net dom)) (fst (Dns.dmarcLookup net dom))
              (fst (Dns.dnssecLookup net dom)) (fst (Dns.mxLookup net dom))
              (fst (Dns.nsLookup net dom))) as (Hscore & Hids & _).
  fold (Dns.analyzeAttackSurface net dom) in Hscore, Hids. fold result in Hscore, Hids.
  assert (Hlen : length (Dns.issues result) = length (map Dns.id (Dns.issues result)))
    by (symmetry; apply length_map).
  assert (Hnil : Dns.issues result = [] <-> map Dns.id (Dns.issues result) = []).
  { split; [intros ->; reflexivity | apply map_eq_nil]. }
  rewrite Hnil, Hlen, Hids, Hscore. clear Hnil Hlen Hids Hscore.
  unfold Spec.ruleTable, Spec.fired, Spec.total, Spec.spfValid, Spec.dmarcValid.
  destruct (Spec.spfPresent _), (Spec.dmarcPresent _),
    (Dns.records (fst (Dns.dnssecLookup net dom))) as [|? ?],
    (Dns.records (fst (Dns.mxLookup net dom))) as [|? ?],
    (Dns.records (fst (Dns.nsLookup net dom))) as [|? [|? ?]];
  cbn;
  (split; [repeat constructor; cbn; intuition discriminate|]);
  (split; [lia|]); (split; [lia|]);
  (split; [split; intros H; first [reflexivity | discriminate H | lia] | reflexivity]).
Qed.

(** X6.  For every analysis the label shown is "Critical" exactly when all
    five issues are reported, and "Minimal" only if an SPF and a DMARC
    record were found; for every score the colour is the red one exactly
    when the label is "Critical" and the green one exactly when it is
    "Minimal". *)
Theorem risk_label_of_analysis (net : Dns.Network) (dom : string) :
  let result := Dns.analyzeAttackSurface net dom in
  (Utils.getRiskScoreLabel (Dns.riskScore result) = "Critical" <->
     map Dns.id (Dns.issues result) =
       ["spf-missing"; "dmarc-missing"; "dnssec-missing"; "mx-missing";
        "ns-insufficient"])
  /\ (Utils.getRiskScoreLabel (Dns.riskScore result) = "Minimal" ->
        Dns.present (Dns.spf (Dns.checks result)) = true
        /\ Dns.present (Dns.dmarc (Dns.checks result)) = true)
  /\ (forall score,
        (Utils.getRiskScoreColor score = "text-red-500" <->
           Utils.getRiskScoreLabel score = "Critical")
        /\ (Utils.getRiskScoreColor score = "text-green-500" <->
              Utils.getRiskScoreLabel score = "Minimal")).
Proof.
  intros result.
  destruct (analyzeResults_table dom
              (fst (Dns.spfLookup net dom)) (fst (Dns.dmarcLookup net dom))
              (fst (Dns.dnssecLookup net dom)) (fst (Dns.mxLookup net dom))
              (fst (Dns.nsLookup net dom))) as (Hscore & Hids & Hsp & _ & Hdp & _).
  fold (Dns.analyzeAttackSurface net dom) in Hscore, Hids, Hsp, Hdp.
  fold result in Hscore, Hids, Hsp, Hdp.
  split; [|split].
  - rewrite Hids, Hscore. clear.
    unfold Spec.ruleTable, Spec.fired, Spec.total, Spec.spfValid, Spec.dmarcValid.
    destruct (Spec.spfPresent _), (Spec.dmarcPresent _),
      (Dns.records (fst (Dns.dnssecLookup net dom))) as [|? ?],
      (Dns.records (fst (Dns.mxLookup net dom))) as [|? ?],
      (Dns.records (fst (Dns.nsLookup net dom))) as [|? [|? ?]];
    cbn; split; intros H; first [reflexivity | discriminate H].
  - rewrite Hsp, Hdp, Hscore. clear.
    unfold Spec.ruleTable, Spec.fired, Spec.total, Spec.spfValid, Spec.dmarcValid.
    destruct (Spec.spfPresent _), (Spec.dmarcPresent _),
      (Dns.records (fst (Dns.dnssecLookup net dom))) as [|? ?],
      (Dns.records (fst (Dns.mxLookup net dom))) as [|? ?],
      (Dns.records (fst (Dns.nsLookup net dom))) as [|? [|? ?]];
    cbn; intros H; first [split; reflexivity | discriminate H].
  - intros score. unfold Utils.getRiskScoreColor, Utils.getRiskScoreLabel.
    destruct (80 <=? score); [split; split; intros H; first [reflexivity | discriminate H]|].
    destruct (60 <=? score); [split; split; intros H; discriminate H|].
    destruct (40 <=? score); [split; split; intros H; discriminate H|].
    destruct (20 <=? score); split; split; intros H; first [reflexivity | discriminate H].
Qed.

(** X7.  The SPF and DMARC badges never read "invalid": each reads "valid"
    when a record with the policy prefix was returned and "missing"
    otherwise. *)
Theorem email_badges_never_invalid (net : Dns.Network) (dom : string) :
  let result := Dns.analyzeAttackSurface net dom in
  AttackSurfaceTool.emailBadge (Dns.spf (Dns.checks result)) =
    (if Spec.spfPresent (Dns.records (fst (Dns.spfLookup net dom)))
     then "valid" else "missing")
  /\ AttackSurfaceTool.emailBadge (Dns.dmarc (Dns.checks result)) =
       (if Spec.dmarcPresent (Dns.records (fst (Dns.dmarcLookup net dom)))
        then "valid" else "missing")
  /\ AttackSurfaceTool.emailBadge (Dns.spf (Dns.checks result)) <> "invalid"
  /\ AttackSurfaceTool.emailBadge (Dns.dmarc (Dns.checks result)) <> "invalid".
Proof.
  intros result.
  destruct (analyzeResults_table dom
              (fst (Dns.spfLookup net dom)) (fst (Dns.dmarcLookup net dom))
              (fst (Dns.dnssecLookup net dom)) (fst (Dns.mxLookup net dom))
              (fst (Dns.nsLookup net dom))) as (_ & _ & Hsp & Hsv & Hdp & Hdv).
  fold (Dns.analyzeAttackSurface net dom) in Hsp, Hsv, Hdp, Hdv.
  fold result in Hsp, Hsv, Hdp, Hdv.
  unfold AttackSurfaceTool.emailBadge.
  rewrite Hsp, Hsv, Hdp, Hdv. unfold Spec.spfValid, Spec.dmarcValid.
  destruct (Spec.spfPresent _), (Spec.dmarcPresent _);
    repeat split; discriminate.
Qed.

(** *** The displayed order of the issues *)

Lemma insertBy_front {T : Type} (cmp : T -> T -> Z) (x : T) (l : list T) :
  (forall y, In y l -> cmp x y <= 0) -> Str.insertBy cmp x l = x :: l.
Proof.
  destruct l as [|y l]; intros H; [reflexivity|].
  cbn [Str.insertBy].
  destruct (Z.leb_spec (cmp x y) 0) as [_|Hgt]; [reflexivity|].
  specialize (H y (or_introl eq_refl)). lia.
Qed.

Lemma insertBy_skip {T : Type} (cmp : T -> T -> Z) (x : T) (l1 l2 : list T) :
  (forall y, In y l1 -> 0 < cmp x y) ->
  Str.insertBy cmp x (l1 ++ l2) = l1 ++ Str.insertBy cmp x l2.
Proof.
  induction l1 as [|y l1 IH]; intros H; [reflexivity|].
  cbn [app Str.insertBy].
  destruct (Z.leb_spec (cmp x y) 0) as [Hle|_].
  - specialize (H y (or_introl eq_refl)). lia.
  - rewrite IH; [reflexivity|]. intros z Hz. apply H. right. exact Hz.
Qed.

Lemma Severity_eqb_eq (x y : Dns.Severity) :
  AttackSurfaceTool.Severity_eqb x y = true <-> x = y.
Proof. destruct x, y; cbn; split; intros H; try reflexivity; discriminate. Qed.

Lemma in_filter_severity (s : Dns.Severity) (l : list Dns.AttackSurfaceIssue)
    (y : Dns.AttackSurfaceIssue) :
  In y (filter (fun i => AttackSurfaceTool.Severity_eqb (Dns.severity i) s) l) ->
  Dns.severity y = s.
Proof. intros H. apply filter_In in H as [_ H]. apply Severity_eqb_eq, H. Qed.

(** X8.  The displayed issue list is the reported list regrouped by
    severity, critical first, then high, medium and low, the issues of one
    severity staying in the order in which they were reported; it has the
    same issues as the reported list, and for an analysis it has no critical
    group. *)
Theorem displayedIssues_grouped_by_severity :
  (forall result,
     let group s :=
       filter (fun i => AttackSurfaceTool.Severity_eqb (Dns.severity i) s)
         (Dns.issues result) in
     AttackSurfaceTool.displayedIssues result =
       group Dns.critical ++ group Dns.high ++ group Dns.medium ++ group Dns.low
     /\ (forall i, In i (AttackSurfaceTool.displayedIssues result) <->
                   In i (Dns.issues result)))
  /\ (forall net dom,
        filter (fun i => AttackSurfaceTool.Severity_eqb (Dns.severity i) Dns.critical)
          (Dns.issues (Dns.analyzeAttackSurface net dom)) = []).
Proof.
  assert (Hsort : forall l,
    Str.sort AttackSurfaceTool.bySeverity l =
    filter (fun i => AttackSurfaceTool.Severity_eqb (Dns.severity i) Dns.critical) l
    ++ filter (fun i => AttackSurfaceTool.Severity_eqb (Dns.severity i) Dns.high) l
    ++ filter (fun i => AttackSurfaceTool.Severity_eqb (Dns.severity i) Dns.medium) l
    ++ filter (fun i => AttackSurfaceTool.Severity_eqb (Dns.severity i) Dns.low) l).
  { induction l as [|x l IH]; [reflexivity|].
    unfold Str.sort in *. cbn [fold_right]. rewrite IH. clear IH.
    cbn [filter].
    assert (Hcmp : forall y s, Dns.severity y = s ->
              AttackSurfaceTool.bySeverity x y =
              Str.indexOf AttackSurfaceTool.Severity_eqb
                AttackSurfaceTool.severityOrder (Dns.severity x)
              - Str.indexOf AttackSurfaceTool.Severity_eqb
                  AttackSurfaceTool.severityOrder s)
      by (intros y s <-; reflexivity).
    destruct (Dns.severity x) eqn:Ex; cbn [AttackSurfaceTool.Severity_eqb app].
    - apply insertBy_front. intros y Hy.
      repeat (apply in_app_or in Hy as [Hy|Hy]);
        apply in_filter_severity in Hy; rewrite (Hcmp y _ Hy); cbn; lia.
    - rewrite insertBy_skip
        by (intros y Hy; apply in_filter_severity in Hy;
            rewrite (Hcmp y _ Hy); cbn; lia).
      rewrite insertBy_front; [reflexivity|]. intros y Hy.
      repeat (apply in_app_or in Hy as [Hy|Hy]);
        apply in_filter_severity in Hy; rewrite (Hcmp y _ Hy); cbn; lia.
    - rewrite insertBy_skip
        by (intros y Hy; apply in_filter_severity in Hy;
            rewrite (Hcmp y _ Hy); cbn; lia).
      rewrite insertBy_skip
        by (intros y Hy; apply in_filter_severity in Hy;
            rewrite (Hcmp y _ Hy); cbn; lia).
      rewrite insertBy_front; [reflexivity|]. intros y Hy.
      repeat (apply in_app_or in Hy as [Hy|Hy]);
        apply in_filter_severity in Hy; rewrite (Hcmp y _ Hy); cbn; lia.
    - rewrite insertBy_skip
        by (intros y Hy; apply in_filter_severity in Hy;
            rewrite (Hcmp y _ Hy); cbn; lia).
      rewrite insertBy_skip
        by (intros y Hy; apply in_filter_severity in Hy;
            rewrite (Hcmp y _ Hy); cbn; lia).
      rewrite insertBy_skip
        by (intros y Hy; apply in_filter_severity in Hy;
            rewrite (Hcmp y _ Hy); cbn; lia).
      rewrite insertBy_front; [reflexivity|]. intros y Hy.
      apply in_filter_severity in Hy; rewrite (Hcmp y _ Hy); cbn; lia. }
  split.
  - intros result group. unfold AttackSurfaceTool.displayedIssues.
    split; [apply Hsort|].
    intros i. rewrite Hsort, !in_app_iff, !filter_In, !Severity_eqb_eq.
    destruct (Dns.severity i); intuition discriminate.
  - intros net dom. apply filter_none. intros i Hi.
    unfold Dns.analyzeAttackSurface in Hi.
    apply analyzeResults_issues_known in Hi.
    repeat (destruct Hi as [<-|Hi]; [reflexivity|]). contradiction.
Qed.

(** X9.  Every link of the graph joins two nodes of the graph: its source
    and its target are ids of nodes in the node list. *)
Theorem graph_links_join_nodes (net : Dns.Network) (dom : string) :
  let nodes := fst (Graph.buildGraph net dom) in
  let links := snd (Graph.buildGraph net dom) in
  forall l, In l links ->
    In (Graph.source l) (map Graph.id nodes)
    /\ In (Graph.target l) (map Graph.id nodes).
Proof.
  intros nodes links l Hl. subst nodes links.
  rewrite buildGraph_spec in Hl |- *. cbn [fst snd Spec.graph] in Hl |- *.
  cbn [map Graph.id]. rewrite !map_app.
  assert (Hleaf : forall t nodeType recs,
            In l (map (Spec.leafLink dom t) recs) ->
            Graph.source l = dom
            /\ In (Graph.target l) (map Graph.id (map (Spec.leafNode t nodeType) recs))).
  { intros t nodeType recs Hin. apply in_map_iff in Hin as (r & <- & Hr).
    split; [reflexivity|].
    apply in_map_iff. exists (Spec.leafNode t nodeType r).
    split; [reflexivity | apply in_map; exact Hr]. }
  repeat (apply in_app_or in Hl as [Hl|Hl]).
  - destruct (Hleaf _ Graph.a _ Hl) as [-> Ht].
    split; [left; reflexivity | right; rewrite !in_app_iff; tauto].
  - destruct (Hleaf _ Graph.aaaa _ Hl) as [-> Ht].
    split; [left; reflexivity | right; rewrite !in_app_iff; tauto].
  - destruct (Hleaf _ Graph.mx _ Hl) as [-> Ht].
    split; [left; reflexivity | right; rewrite !in_app_iff; tauto].
  - destruct (Hleaf _ Graph.ns _ Hl) as [-> Ht].
    split; [left; reflexivity | right; rewrite !in_app_iff; tauto].
  - destruct (Hleaf _ Graph.cname _ Hl) as [-> Ht].
    split; [left; reflexivity | right; rewrite !in_app_iff; tauto].
Qed.

(** A link of the two-A-one-MX graph, computed. *)
Lemma graph_links_join_nodes_witness :
  In "mx-10 mail.example.com."
     (map Graph.id (fst (Graph.buildGraph Examples.net_two_a_one_mx "example.com"))).
Proof.
  apply (graph_links_join_nodes Examples.net_two_a_one_mx "example.com"
           {| Graph.source := "example.com"; Graph.target := "mx-10 mail.example.com.";
              Graph.link_type := "MX" |}).
  cbn. right. right. left. reflexivity.
Defined.

(* ================================================================== *)
(** ** More on the history *)
(* ================================================================== *)

Lemma differs_same_pair (x y h : History.HistoryItem) :
  Spec.samePair x y = true -> History.differs y h = History.differs x h.
Proof.
  intros H. apply samePair_key in H. unfold Aux.key in H. injection H as Hd Ht.
  unfold History.differs. rewrite Hd, Ht. reflexivity.
Qed.

Lemma differs_self (x : History.HistoryItem) : History.differs x x = false.
Proof.
  rewrite differs_samePair.
  assert (H : Spec.samePair x x = true) by (apply samePair_key; reflexivity).
  rewrite H. reflexivity.
Qed.

(** X10.  Saving an entry for the pair of the entry saved just before only
    replaces the head of the history: the other entries stay, in their
    order, and the result is what saving the new entry alone would give. *)
Theorem updated_again_replaces_head (x y : History.HistoryItem)
    (l : list History.HistoryItem) :
  Spec.samePair x y = true ->
  History.updated y (History.updated x l) = y :: tl (History.updated x l)
  /\ History.updated y (History.updated x l) = History.updated y l.
Proof.
  intros Hxy.
  assert (Hfy : filter (History.differs y) l = filter (History.differs x) l)
    by (apply filter_ext; intros h; apply differs_same_pair, Hxy).
  assert (Hyx : History.differs y x = false).
  { rewrite (differs_same_pair x y x Hxy). apply differs_self. }
  unfold History.updated. change 20%nat with (S 19).
  rewrite !firstn_cons. cbn [tl filter]. rewrite Hyx, Hfy.
  assert (Hid : filter (History.differs y) (firstn 19 (filter (History.differs x) l))
                = firstn 19 (filter (History.differs x) l)).
  { apply forallb_filter_id, forallb_forall. intros h Hh.
    rewrite (differs_same_pair x y h Hxy).
    assert (Hin : In h (filter (History.differs x) l)).
    { rewrite <- (firstn_skipn 19 (filter _ _)). apply in_or_app. left. exact Hh. }
    apply filter_In in Hin as [_ Hd]. exact Hd. }
  rewrite Hid, firstn_firstn, Nat.min_id. split; reflexivity.
Qed.

(** The same lookup repeated a minute later, computed. *)
Lemma updated_again_replaces_head_witness :
  let later := {| History.id := "1700000060000"; History.domain := "a.example.com";
                  History.recordType := Dns.A; History.timestamp := 1700000060000 |} in
  History.updated later
    (History.updated (Examples.entry 0 Dns.A) [Examples.entry 1 Dns.MX])
  = [later; Examples.entry 1 Dns.MX].
Proof.
  intros later.
  destruct (updated_again_replaces_head (Examples.entry 0 Dns.A) later
              [Examples.entry 1 Dns.MX] eq_refl) as [H _].
  rewrite H. reflexivity.
Defined.


(* ================================================================== *)
(** ** lib/utils.ts *)
(* ================================================================== *)

Lemma string_length_append (s1 s2 : string) :
  String.length (s1 ++ s2)%string = (String.length s1 + String.length s2)%nat.
Proof. induction s1 as [|c s1 IH]; cbn; [reflexivity | rewrite IH; reflexivity]. Qed.

Lemma string_length_substring0 (s : string) : forall n,
  String.length (String.substring 0 n s) = Nat.min n (String.length s).
Proof.
  induction s as [|c s IH]; intros [|n]; cbn; try reflexivity.
  rewrite IH. reflexivity.
Qed.

(** X12.  With a limit of at least 3, [truncateText] returns a text that
    fits the limit unchanged, and cuts a longer one to the limit exactly:
    its first [maxLength - 3] characters followed by three dots. *)
Theorem truncateText_fits (text : string) (maxLength : Z) :
  3 <= maxLength ->
  let result := Utils.truncateText text maxLength in
  Z.of_nat (String.length result) <= maxLength
  /\ (Z.of_nat (String.length text) <= maxLength -> result = text)
  /\ (maxLength < Z.of_nat (String.length text) ->
      result = (String.substring 0 (Z.to_nat (maxLength - 3)) text ++ "...")%string
      /\ Z.of_nat (String.length result) = maxLength).
Proof.
  intros Hmax result. subst result. unfold Utils.truncateText.
  destruct (Z.leb_spec (Z.of_nat (String.length text)) maxLength) as [Hfit|Hlong].
  - split; [exact Hfit|]. split; [reflexivity | lia].
  - assert (Hslice : Str.slice text 0 (maxLength - 3) =
                     String.substring 0 (Z.to_nat (maxLength - 3)) text).
    { unfold Str.slice, Str.sliceIndex.
      destruct (Z.ltb_spec 0 0) as [|_]; [lia|].
      destruct (Z.ltb_spec (maxLength - 3) 0) as [|_]; [lia|].
      rewrite (Z.min_l 0) by lia. rewrite (Z.min_l (maxLength - 3)) by lia.
      rewrite Z.sub_0_r, Z.max_l by lia. reflexivity. }
    rewrite Hslice.
    assert (Hlen : Z.of_nat (String.length
                     (String.substring 0 (Z.to_nat (maxLength - 3)) text ++ "...")%string)
                   = maxLength).
    { rewrite string_length_append, string_length_substring0. cbn [String.length]. lia. }
    split; [lia|]. split; [lia|]. intros _. split; [reflexivity | exact Hlen].
Qed.

(** A text of 26 characters cut to 10, computed. *)
Lemma truncateText_fits_witness :
  Utils.truncateText "abcdefghijklmnopqrstuvwxyz" 10 = "abcdefg..."
  /\ Z.of_nat (String.length (Utils.truncateText "abcdefghijklmnopqrstuvwxyz" 10)) <= 10.
Proof.
  split; [reflexivity|].
  apply (truncateText_fits "abcdefghijklmnopqrstuvwxyz" 10). lia.
Defined.

(** X13.  With a limit below 3 a text longer than the limit comes back
    longer than the limit: the cut position [maxLength - 3] is negative and
    counts from the end of the text, and the three dots are added to what
    remains. *)
Theorem truncateText_small_limit_overflows (text : string) (maxLength : Z) :
  maxLength < 3 ->
  maxLength < Z.of_nat (String.length text) ->
  let result := Utils.truncateText text maxLength in
  Z.of_nat (String.length result) =
    Z.max (Z.of_nat (String.length text) + maxLength - 3) 0 + 3
  /\ maxLength < Z.of_nat (String.length result).
Proof.
  intros Hmax Hlong result. subst result. unfold Utils.truncateText.
  destruct (Z.leb_spec (Z.of_nat (String.length text)) maxLength) as [Hfit|_]; [lia|].
  unfold Str.slice, Str.sliceIndex.
  destruct (Z.ltb_spec 0 0) as [|_]; [lia|].
  destruct (Z.ltb_spec (maxLength - 3) 0) as [_|]; [|lia].
  rewrite (Z.min_l 0) by lia. rewrite Z.sub_0_r. change (Z.to_nat 0) with 0%nat.
  rewrite string_length_append, string_length_substring0. cbn [String.length].
  lia.
Qed.

(** A text of 6 characters with limit 2 comes back with 8, computed. *)
Lemma truncateText_small_limit_overflows_witness :
  Utils.truncateText "abcdef" 2 = "abcde..."
  /\ 2 < Z.of_nat (String.length (Utils.truncateText "abcdef" 2)).
Proof.
  split; [reflexivity|].
  apply (truncateText_small_limit_overflows "abcdef" 2); cbn; lia.
Defined.

(** X14.  [formatRelativeTime] reads "just now" for a date less than a
    minute back and for any date ahead of the clock; from one minute on it
    counts whole minutes, from 1 to 59; from one hour on whole hours, from 1
    to 23; from one day on it gives the formatted date. *)
Theorem formatRelativeTime_bands (formatDate : Z -> string) (now date : Z) :
  let result := Utils.formatRelativeTime formatDate now date in
  (now - date < 60000 -> result = "just now")
  /\ (60000 <= now - date < 3600000 ->
      result = (JS.numberToString ((now - date) / 60000) ++ "m ago")%string
      /\ 1 <= (now - date) / 60000 <= 59)
  /\ (3600000 <= now - date < 86400000 ->
      result = (JS.numberToString ((now - date) / 3600000) ++ "h ago")%string
      /\ 1 <= (now - date) / 3600000 <= 23)
  /\ (86400000 <= now - date -> result = formatDate date).
Proof.
  intros result. subst result. unfold Utils.formatRelativeTime.
  set (ms := now - date).
  assert (Hm : ms / 1000 / 60 = ms / 60000)
    by (rewrite Z.div_div by lia; reflexivity).
  assert (Hh : ms / 1000 / 3600 = ms / 3600000)
    by (rewrite Z.div_div by lia; reflexivity).
  rewrite Hm, Hh.
  destruct (Z.ltb_spec (ms / 1000) 60) as [H1|H1];
  [|destruct (Z.ltb_spec (ms / 1000) 3600) as [H2|H2];
    [|destruct (Z.ltb_spec (ms / 1000) 86400) as [H3|H3]]];
  repeat split; intros; try reflexivity;
  Z.div_mod_to_equations; lia.
Qed.

(** Two minutes and five seconds back, computed. *)
Lemma formatRelativeTime_bands_witness :
  Utils.formatRelativeTime (fun _ => "Nov 14, 10:13 PM") 1700000125000 1700000000000
  = "2m ago".
Proof.
  destruct (formatRelativeTime_bands (fun _ => "Nov 14, 10:13 PM")
              1700000125000 1700000000000) as (_ & Hm & _).
  destruct Hm as [Hm _]; [lia|]. rewrite Hm. reflexivity.
Defined.

(* ================================================================== *)
(** ** The propagation check *)
(* ================================================================== *)

Section Propagation.

Import Dns SubdomainTest.

Variables (fetch : FetchA) (testSubdomain : string).

Lemma verdict_subdomain (server : Server) :
  subdomain (Notions.verdict fetch testSubdomain server) = name server.
Proof.
  unfold Notions.verdict.
  destruct (fetch _ _) as [|httpStatus [|data]]; [reflexivity| |].
  - destruct (ok httpStatus); reflexivity.
  - destruct (ok httpStatus); [|reflexivity].
    destruct (Answer data) as [[|first rest]|]; reflexivity.
Qed.

Lemma setAt_end {T : Type} (l : list T) (c r : T) :
  Str.setAt (length l) r (l ++ [c]) = l ++ [r].
Proof. induction l as [|x l IH]; cbn; [reflexivity | rewrite IH; reflexivity]. Qed.

Lemma findIndex_end {T : Type} (p : T -> bool) (l : list T) (c : T) :
  (forall x, In x l -> p x = false) -> p c = true ->
  Str.findIndex p (l ++ [c]) = Some (length l).
Proof.
  induction l as [|x l IH]; intros Hl Hc; cbn.
  - rewrite Hc. reflexivity.
  - rewrite (Hl x (or_introl eq_refl)), IH; [reflexivity | | exact Hc].
    intros y Hy. apply Hl. right. exact Hy.
Qed.

(** The entry that is replaced is the one just pushed, provided no earlier
    server has the same name. *)
Lemma replaceNamed_last (done : list Server) (server : Server) (r : TestResult) :
  ~ In (name server) (map name done) ->
  replaceNamed (name server) r
    (map (Notions.verdict fetch testSubdomain) done ++ [Notions.inFlight server])
  = map (Notions.verdict fetch testSubdomain) done ++ [r].
Proof.
  intros Hnew. unfold replaceNamed.
  rewrite findIndex_end.
  - apply setAt_end.
  - intros x Hx. apply in_map_iff in Hx as (s & <- & Hs).
    rewrite verdict_subdomain. apply String.eqb_neq. intros E.
    apply Hnew. rewrite <- E. apply in_map. exact Hs.
  - cbn. apply String.eqb_refl.
Qed.

(** One turn of the loop pushes the in-flight entry, shows the list, puts
    the verdict in the place found by name, and shows the list again. *)
Lemma checkServer_eq (results : list TestResult) (shown : list (list TestResult))
    (server : Server) :
  checkServer fetch testSubdomain (results, shown) server
  = (replaceNamed (name server) (Notions.verdict fetch testSubdomain server)
       (results ++ [Notions.inFlight server]),
     (shown ++ [results ++ [Notions.inFlight server]])
     ++ [replaceNamed (name server) (Notions.verdict fetch testSubdomain server)
           (results ++ [Notions.inFlight server])]).
Proof.
  unfold checkServer, Notions.verdict. fold (Notions.inFlight server).
  destruct (fetch (url server) testSubdomain) as [|httpStatus [|data]].
  - reflexivity.
  - destruct (ok httpStatus); reflexivity.
  - destruct (ok httpStatus); [|reflexivity].
    destruct (Answer data) as [[|first rest]|]; reflexivity.
Qed.

Lemma checkServer_verdict (done : list Server) (server : Server)
    (shown : list (list TestResult)) :
  ~ In (name server) (map name done) ->
  checkServer fetch testSubdomain
    (map (Notions.verdict fetch testSubdomain) done, shown) server
  = (map (Notions.verdict fetch testSubdomain) (done ++ [server]),
     shown ++ [ map (Notions.verdict fetch testSubdomain) done ++ [Notions.inFlight server];
                map (Notions.verdict fetch testSubdomain) (done ++ [server]) ]).
Proof.
  intros Hnew. rewrite checkServer_eq, (replaceNamed_last done server _ Hnew).
  rewrite map_app, <- app_assoc. reflexivity.
Qed.

Lemma checkServers_snapshots (rest : list Server) : forall done shown,
  NoDup (map name (done ++ rest)) ->
  fold_left (checkServer fetch testSubdomain) rest
    (map (Notions.verdict fetch testSubdomain) done, shown)
  = (map (Notions.verdict fetch testSubdomain) (done ++ rest),
     shown ++ Notions.snapshots fetch testSubdomain done rest).
Proof.
  induction rest as [|server rest IH]; intros done shown Hnd.
  - cbn. rewrite !app_nil_r. reflexivity.
  - cbn [fold_left Notions.snapshots].
    rewrite checkServer_verdict.
    + rewrite IH.
      * rewrite <- !app_assoc. reflexivity.
      * rewrite <- app_assoc. exact Hnd.
    + rewrite map_app in Hnd. cbn [map] in Hnd.
      apply NoDup_remove_2 in Hnd. intros Hin. apply Hnd.
      apply in_or_app. left. exact Hin.
Qed.

End Propagation.

(** X15.  A propagation check for a non-empty name displays first the empty
    list, then for each of the three resolvers in turn the verdicts so far
    with the resolver in flight, then with its verdict; the list that stays
    displayed has one entry per resolver, in the order Google, Cloudflare,
    Quad9, and none of them is pending or in flight.  For the empty name
    nothing is displayed. *)
Theorem handleCheckPropagation_snapshots
    (fetch : SubdomainTest.FetchA) (testSubdomain : string) :
  (testSubdomain <> ""%string ->
     let shown := SubdomainTest.handleCheckPropagation fetch testSubdomain in
     let final := map (Notions.verdict fetch testSubdomain) SubdomainTest.dnsServers in
     shown = [] :: Notions.snapshots fetch testSubdomain [] SubdomainTest.dnsServers
     /\ length shown = 7%nat
     /\ last shown [] = final
     /\ map SubdomainTest.subdomain final = ["Google"; "Cloudflare"; "Quad9"]
     /\ Forall (fun r => SubdomainTest.status r <> SubdomainTest.pending
                         /\ SubdomainTest.status r <> SubdomainTest.checking) final)
  /\ SubdomainTest.handleCheckPropagation fetch ""%string = [].
Proof.
  split; [|reflexivity].
  intros Hne shown final.
  assert (Hshown : shown = [] :: Notions.snapshots fetch testSubdomain []
                                   SubdomainTest.dnsServers).
  { subst shown. unfold SubdomainTest.handleCheckPropagation, SubdomainTest.checkPropagation.
    destruct (String.eqb_spec testSubdomain ""%string) as [E|_]; [contradiction|].
    change (@nil SubdomainTest.TestResult)
      with (map (Notions.verdict fetch testSubdomain) []) at 1.
    rewrite checkServers_snapshots.
    - reflexivity.
    - cbn. repeat constructor; cbn; intuition discriminate. }
  split; [exact Hshown|]. rewrite Hshown.
  split; [reflexivity|]. split; [reflexivity|].
  subst final. split.
  - rewrite map_map. cbn [map SubdomainTest.dnsServers].
    rewrite !verdict_subdomain. reflexivity.
  - apply Forall_forall. intros r Hr.
    apply in_map_iff in Hr as (server & <- & _).
    unfold Notions.verdict.
    destruct (fetch _ _) as [|httpStatus [|data]].
    + split; discriminate.
    + destruct (Dns.ok httpStatus); split; discriminate.
    + destruct (Dns.ok httpStatus); [|split; discriminate].
      destruct (Dns.Answer data) as [[|first rest]|]; split; discriminate.
Qed.

(** One resolver with the record, one without, one unreachable, computed. *)
Lemma handleCheckPropagation_snapshots_witness :
  last (SubdomainTest.handleCheckPropagation Samples.fetch_propagating
          "test-k3x9qa.example.com") []
  = [ {| SubdomainTest.subdomain := "Google"; SubdomainTest.status := SubdomainTest.found;
         SubdomainTest.ip := Some "192.0.2.7"; SubdomainTest.err := None |};
      {| SubdomainTest.subdomain := "Cloudflare";
         SubdomainTest.status := SubdomainTest.not_found;
         SubdomainTest.ip := None; SubdomainTest.err := None |};
      {| SubdomainTest.subdomain := "Quad9"; SubdomainTest.status := SubdomainTest.error;
         SubdomainTest.ip := None; SubdomainTest.err := Some "Connection failed" |} ].
Proof.
  destruct (handleCheckPropagation_snapshots Samples.fetch_propagating
              "test-k3x9qa.example.com") as [H _].
  destruct H as (_ & _ & Hlast & _); [discriminate|].
  rewrite Hlast. reflexivity.
Defined.

(* ================================================================== *)
(** ** Matching by derivatives decides the language of a pattern *)
(* ================================================================== *)

Section RegExpFacts.

Import RegExp Lang.

Lemma string_app_nil_inv (s1 s2 : string) :
  (s1 ++ s2)%string = EmptyString -> s1 = EmptyString /\ s2 = EmptyString.
Proof. destruct s1; cbn; intros H; [split; [reflexivity | exact H] | discriminate H]. Qed.

Lemma string_app_assoc (s1 s2 s3 : string) :
  ((s1 ++ s2) ++ s3)%string = (s1 ++ s2 ++ s3)%string.
Proof. induction s1 as [|c s1 IH]; cbn; [reflexivity | rewrite IH; reflexivity]. Qed.

Lemma string_app_nil_r (s : string) : (s ++ "")%string = s.
Proof. induction s as [|c s IH]; cbn; [reflexivity | rewrite IH; reflexivity]. Qed.

Lemma nullable_lang (r : Regex) : nullable r = true <-> lang r EmptyString.
Proof.
  induction r as [| |p|a IHa b IHb|a IHa b IHb|a IHa]; cbn.
  - split; [discriminate | contradiction].
  - split; reflexivity.
  - split; [discriminate | intros (c & H & _); discriminate H].
  - rewrite andb_true_iff, IHa, IHb. split.
    + intros [Ha Hb]. exists EmptyString, EmptyString. auto.
    + intros (s1 & s2 & H & Ha & Hb). symmetry in H.
      apply string_app_nil_inv in H as [-> ->]. auto.
  - rewrite orb_true_iff, IHa, IHb. reflexivity.
  - split; [constructor | reflexivity].
Qed.

Lemma star_cons_inv (L : string -> Prop) (c : ascii) (s : string) :
  star L (String c s) ->
  exists s1 s2, s = (s1 ++ s2)%string /\ L (String c s1) /\ star L s2.
Proof.
  intros H. remember (String c s) as t eqn:E.
  induction H as [|s1 s2 H1 H2 IH]; [discriminate E|].
  destruct s1 as [|c1 s1]; cbn in E.
  - apply IH, E.
  - injection E as -> <-. exists s1, s2. auto.
Qed.

Lemma deriv_lang (r : Regex) : forall c s,
  lang (deriv c r) s <-> lang r (String c s).
Proof.
  induction r as [| |p|a IHa b IHb|a IHa b IHb|a IHa]; intros c s; cbn [deriv lang].
  - reflexivity.
  - split; [contradiction | discriminate].
  - destruct (p c) eqn:Ep; cbn [lang].
    + split.
      * intros ->. exists c. auto.
      * intros (c' & E & _). injection E. auto.
    + split; [contradiction|].
      intros (c' & E & Hp). injection E as -> _. congruence.
  - destruct (nullable a) eqn:En; cbn [lang].
    + split.
      * intros [(s1 & s2 & -> & Ha & Hb) | Hb].
        -- exists (String c s1), s2. rewrite <- IHa. auto.
        -- exists EmptyString, (String c s). rewrite <- IHb.
           apply nullable_lang in En. auto.
      * intros (t1 & t2 & E & Ha & Hb). destruct t1 as [|c1 t1]; cbn in E.
        -- right. subst t2. apply IHb, Hb.
        -- injection E as <- ->. left. exists t1, t2. rewrite IHa. auto.
    + split.
      * intros (s1 & s2 & -> & Ha & Hb).
        exists (String c s1), s2. rewrite <- IHa. auto.
      * intros (t1 & t2 & E & Ha & Hb). destruct t1 as [|c1 t1]; cbn in E.
        -- apply nullable_lang in Ha. congruence.
        -- injection E as <- ->. exists t1, t2. rewrite IHa. auto.
  - rewrite IHa, IHb. reflexivity.
  - split.
    + intros (s1 & s2 & -> & Ha & Hs).
      apply (star_app (lang a) (String c s1) s2); [apply IHa, Ha | exact Hs].
    + intros H. apply star_cons_inv in H as (s1 & s2 & -> & Ha & Hs).
      exists s1, s2. rewrite IHa. auto.
Qed.

(** [matches] is membership in the language of the pattern. *)
Lemma matches_lang (r : Regex) (s : string) : matches r s = true <-> lang r s.
Proof.
  revert r. induction s as [|c s IH]; intros r; cbn [matches].
  - apply nullable_lang.
  - rewrite IH. apply deriv_lang.
Qed.

(** *** Strings of one class *)

Lemma allChars_app (p : ascii -> bool) (s1 s2 : string) :
  allChars p (s1 ++ s2) = allChars p s1 && allChars p s2.
Proof.
  induction s1 as [|c s1 IH]; cbn; [reflexivity|].
  rewrite IH, andb_assoc. reflexivity.
Qed.

Lemma allChars_weaken (p q : ascii -> bool) (s : string) :
  (forall c, p c = true -> q c = true) -> allChars p s = true -> allChars q s = true.
Proof.
  intros Hpq. induction s as [|c s IH]; cbn; [reflexivity|].
  intros H. apply andb_prop in H as [Hc Hs]. rewrite (Hpq c Hc), (IH Hs). reflexivity.
Qed.

Lemma string_split (n : nat) : forall s,
  (n <= String.length s)%nat ->
  exists s1 s2, s = (s1 ++ s2)%string /\ String.length s1 = n.
Proof.
  induction n as [|n IH]; intros s H.
  - exists EmptyString, s. auto.
  - destruct s as [|c s]; cbn in H; [lia|].
    destruct (IH s) as (s1 & s2 & -> & Hl); [lia|].
    exists (String c s1), s2. cbn. auto.
Qed.

Lemma lang_star_class (p : ascii -> bool) (s : string) :
  star (lang (Class p)) s <-> allChars p s = true.
Proof.
  split.
  - induction 1 as [|s1 s2 (c & -> & Hc) _ IH]; [reflexivity|].
    cbn. rewrite Hc, IH. reflexivity.
  - induction s as [|c s IH]; cbn; intros H; [constructor|].
    apply andb_prop in H as [Hc Hs].
    apply (star_app (lang (Class p)) (String c EmptyString) s); [|auto].
    exists c. auto.
Qed.

Lemma lang_times_class (p : ascii -> bool) (n : nat) : forall s,
  lang (Times n (Class p)) s <-> String.length s = n /\ allChars p s = true.
Proof.
  induction n as [|n IH]; intros s; cbn [Times lang].
  - split; [intros ->; auto | intros [H _]; destruct s; [reflexivity | discriminate H]].
  - split.
    + intros (s1 & s2 & -> & (c & -> & Hc) & H2). apply IH in H2 as [Hl Ha].
      cbn. rewrite Hc, Ha, Hl. auto.
    + intros [Hl Ha]. destruct s as [|c s]; [discriminate Hl|].
      cbn in Hl, Ha. apply andb_prop in Ha as [Hc Ha].
      exists (String c EmptyString), s. split; [reflexivity|].
      split; [exists c; auto | apply IH; split; [lia | exact Ha]].
Qed.

Lemma lang_upto_class (p : ascii -> bool) (k : nat) : forall s,
  lang (UpTo k (Class p)) s <-> (String.length s <= k)%nat /\ allChars p s = true.
Proof.
  induction k as [|k IH]; intros s; cbn [UpTo lang].
  - split; [intros ->; cbn; auto|].
    intros [H _]. destruct s; [reflexivity | cbn in H; lia].
  - split.
    + intros [-> | (s1 & s2 & -> & (c & -> & Hc) & H2)]; [cbn; split; [lia | reflexivity]|].
      apply IH in H2 as [Hl Ha]. cbn. rewrite Hc, Ha. split; [lia | reflexivity].
    + intros [Hl Ha]. destruct s as [|c s]; [left; reflexivity|]. right.
      cbn in Hl, Ha. apply andb_prop in Ha as [Hc Ha].
      exists (String c EmptyString), s. split; [reflexivity|].
      split; [exists c; auto | apply IH; split; [lia | exact Ha]].
Qed.

Lemma lang_plus_class (p : ascii -> bool) (s : string) :
  lang (Plus (Class p)) s <-> s <> EmptyString /\ allChars p s = true.
Proof.
  unfold Plus. cbn [lang]. split.
  - intros (s1 & s2 & -> & (c & -> & Hc) & H2). apply lang_star_class in H2.
    cbn. rewrite Hc, H2. split; [discriminate | reflexivity].
  - intros [Hne Ha]. destruct s as [|c s]; [contradiction|].
    cbn in Ha. apply andb_prop in Ha as [Hc Ha].
    exists (String c EmptyString), s. split; [reflexivity|].
    split; [exists c; auto | apply lang_star_class, Ha].
Qed.

Lemma lang_atleast_class (p : ascii -> bool) (n : nat) (s : string) :
  lang (AtLeast n (Class p)) s <-> (n <= String.length s)%nat /\ allChars p s = true.
Proof.
  unfold AtLeast. cbn [lang]. split.
  - intros (s1 & s2 & -> & H1 & H2).
    apply lang_times_class in H1 as [Hl Ha]. apply lang_star_class in H2.
    rewrite string_length_append, allChars_app, Ha, H2. split; [lia | reflexivity].
  - intros [Hl Ha]. destruct (string_split n s Hl) as (s1 & s2 & -> & Hn).
    rewrite allChars_app in Ha. apply andb_prop in Ha as [Ha1 Ha2].
    exists s1, s2. split; [reflexivity|].
    split; [apply lang_times_class; auto | apply lang_star_class, Ha2].
Qed.

Lemma lang_between_class (p : ascii -> bool) (n m : nat) (s : string) :
  (n <= m)%nat ->
  lang (Between n m (Class p)) s <-> isGroup p n m s.
Proof.
  intros Hnm. unfold Between, isGroup. cbn [lang]. split.
  - intros (s1 & s2 & -> & H1 & H2).
    apply lang_times_class in H1 as [Hl Ha]. apply lang_upto_class in H2 as [Hl2 Ha2].
    rewrite string_length_append, allChars_app, Ha, Ha2. split; [lia | reflexivity].
  - intros [Hl Ha]. destruct (string_split n s) as (s1 & s2 & -> & Hn); [lia|].
    rewrite allChars_app in Ha. apply andb_prop in Ha as [Ha1 Ha2].
    rewrite string_length_append in Hl.
    exists s1, s2. split; [reflexivity|].
    split; [apply lang_times_class; auto | apply lang_upto_class; split; [lia | exact Ha2]].
Qed.

(** *** Groups followed by a separator *)

Lemma lang_only (x : ascii) (s : string) :
  lang (Class (only x)) s <-> s = String x EmptyString.
Proof.
  cbn [lang]. unfold only. split.
  - intros (c & -> & Hc). apply Ascii.eqb_eq in Hc. subst c. reflexivity.
  - intros ->. exists x. split; [reflexivity | apply Ascii.eqb_refl].
Qed.

Lemma lang_star_terminated (G : Regex) (x : ascii) (s : string) :
  star (lang (Seq G (Class (only x)))) s <->
  exists groups, Forall (lang G) groups
                 /\ s = terminated (String x EmptyString) groups.
Proof.
  split.
  - induction 1 as [|s1 s2 (g & t & -> & Hg & Ht) _ (groups & Hall & ->)].
    + exists []. split; [constructor | reflexivity].
    + apply lang_only in Ht. subst t. exists (g :: groups).
      split; [constructor; assumption|]. cbn [terminated].
      rewrite string_app_assoc. reflexivity.
  - intros (groups & Hall & ->). induction Hall as [|g groups Hg _ IH]; [constructor|].
    cbn [terminated]. rewrite <- string_app_assoc.
    apply (star_app _ (g ++ String x EmptyString)%string); [|exact IH].
    exists g, (String x EmptyString). split; [reflexivity|].
    split; [exact Hg | apply lang_only; reflexivity].
Qed.

Lemma lang_times_terminated (G : Regex) (x : ascii) (n : nat) : forall s,
  lang (Times n (Seq G (Class (only x)))) s <->
  exists groups, length groups = n /\ Forall (lang G) groups
                 /\ s = terminated (String x EmptyString) groups.
Proof.
  induction n as [|n IH]; intros s; cbn [Times].
  - cbn [lang]. split.
    + intros ->. exists []. repeat split. constructor.
    + intros (groups & Hl & _ & ->). destruct groups; [reflexivity | discriminate Hl].
  - change (lang (Seq (Seq G (Class (only x))) (Times n (Seq G (Class (only x))))) s)
      with (exists s1 s2, s = (s1 ++ s2)%string
                          /\ lang (Seq G (Class (only x))) s1
                          /\ lang (Times n (Seq G (Class (only x)))) s2).
    split.
    + intros (s1 & s2 & -> & (g & t & -> & Hg & Ht) & H2).
      apply lang_only in Ht. subst t.
      apply IH in H2 as (groups & Hl & Hall & ->).
      exists (g :: groups). cbn [length terminated].
      split; [lia|]. split; [constructor; assumption|].
      rewrite string_app_assoc. reflexivity.
    + intros (groups & Hl & Hall & ->).
      destruct groups as [|g groups]; [discriminate Hl|].
      apply Forall_cons_iff in Hall as [Hg Hall]. cbn [terminated].
      exists (g ++ String x EmptyString)%string, (terminated (String x EmptyString) groups).
      split; [rewrite string_app_assoc; reflexivity|].
      split.
      * exists g, (String x EmptyString). split; [reflexivity|].
        split; [exact Hg | apply lang_only; reflexivity].
      * apply IH. exists groups. cbn in Hl. repeat split; [lia | exact Hall].
Qed.

End RegExpFacts.

(* ================================================================== *)
(** ** The validators *)
(* ================================================================== *)

Section ValidationFacts.

Import RegExp Lang Validation.

Lemma terminated_app (sep : string) (g1 g2 : list string) :
  terminated sep (g1 ++ g2) = (terminated sep g1 ++ terminated sep g2)%string.
Proof.
  induction g1 as [|g g1 IH]; cbn [app terminated]; [reflexivity|].
  rewrite IH, !string_app_assoc. reflexivity.
Qed.

Lemma Forall_lang_plus (groups : list string) :
  Forall (lang (Plus (Class labelChar))) groups <-> Forall isLabel groups.
Proof.
  split; intros H; eapply Forall_impl; try exact H;
    intros g Hg; apply lang_plus_class; exact Hg.
Qed.

Lemma Forall_lang_between (p : ascii -> bool) (n m : nat) (groups : list string) :
  (n <= m)%nat ->
  Forall (lang (Between n m (Class p))) groups <-> Forall (isGroup p n m) groups.
Proof.
  intros Hnm. split; intros H; eapply Forall_impl; try exact H;
    intros g Hg; apply (lang_between_class p n m g Hnm); exact Hg.
Qed.

(** The strings of the domain pattern: one label or more, each followed by
    a dot, then a top-level domain. *)
Lemma lang_domainBody (s : string) :
  lang domainBody s <->
  exists labels tld, labels <> [] /\ Forall isLabel labels /\ isTld tld
                     /\ s = (terminated "." labels ++ tld)%string.
Proof.
  unfold domainBody. split.
  - intros (s1 & s2 & -> & H1 & (y & r & -> & Hy & (d & t & -> & Hd & Ht))).
    apply lang_star_terminated in H1 as (groups & Hall & ->).
    apply Forall_lang_plus in Hall. apply lang_plus_class in Hy.
    apply lang_only in Hd. subst d. apply lang_atleast_class in Ht.
    exists (groups ++ [y]), t.
    split; [intros E; apply app_eq_nil in E as [_ E]; discriminate E|].
    split; [apply Forall_app; split; [exact Hall | constructor; [exact Hy | constructor]]|].
    split; [exact Ht|].
    rewrite terminated_app. cbn [terminated].
    rewrite string_app_nil_r, !string_app_assoc. reflexivity.
  - intros (labels & tld & Hne & Hall & Htld & ->).
    destruct (exists_last Hne) as (groups & y & ->).
    apply Forall_app in Hall as [Hall Hy]. apply Forall_inv in Hy.
    rewrite terminated_app. cbn [terminated].
    rewrite string_app_nil_r, !string_app_assoc.
    exists (terminated "." groups), (y ++ "." ++ tld)%string.
    split; [reflexivity|]. split.
    + apply lang_star_terminated. exists groups.
      split; [apply Forall_lang_plus, Hall | reflexivity].
    + exists y, ("." ++ tld)%string. split; [reflexivity|].
      split; [apply lang_plus_class, Hy|].
      exists "."%string, tld. split; [reflexivity|].
      split; [apply lang_only; reflexivity | apply lang_atleast_class, Htld].
Qed.

(** A string of the domain pattern starts with a label character, so it
    does not start with [://]. *)
Lemma lang_domainBody_lookahead (s : string) :
  lang domainBody s -> JS.startsWith s "://" = false.
Proof.
  intros H. apply lang_domainBody in H as (labels & tld & Hne & Hall & _ & ->).
  destruct labels as [|l labels]; [contradiction|].
  apply Forall_inv in Hall. destruct Hall as [Hl Hc].
  destruct l as [|c l]; [contradiction|].
  cbn in Hc. apply andb_prop in Hc as [Hc _].
  unfold JS.startsWith. cbn [terminated append String.prefix].
  destruct (ascii_dec ":" c) as [<-|_]; [discriminate Hc | reflexivity].
Qed.

Lemma allChars_terminated (p : ascii -> bool) (x : ascii) (groups : list string) :
  p x = true -> Forall (fun g => allChars p g = true) groups ->
  allChars p (terminated (String x EmptyString) groups) = true.
Proof.
  intros Hx. induction 1 as [|g groups Hg _ IH]; [reflexivity|].
  cbn [terminated]. rewrite !allChars_app, Hg, IH. cbn. rewrite Hx. reflexivity.
Qed.

Lemma includes_app_l (a b p : string) :
  JS.includes a p = true -> JS.includes (a ++ b) p = true.
Proof.
  induction a as [|c a IH]; cbn [JS.includes].
  - rewrite orb_false_r. intros H. destruct p as [|d p]; [|discriminate H].
    destruct b; reflexivity.
  - intros H. apply orb_prop in H as [H|H].
    + assert (Hp : String.prefix p (String c a ++ b) = true).
      { clear IH. revert H. generalize (String c a). intros s. revert s.
        induction p as [|d p IHp]; intros s H; [destruct (s ++ b)%string; reflexivity|].
        destruct s as [|e s]; [discriminate H|].
        cbn [append String.prefix] in H |- *.
        destruct (ascii_dec d e); [apply IHp, H | discriminate H]. }
      cbn [append] in Hp |- *. cbn [JS.includes]. rewrite Hp. reflexivity.
    + cbn [append JS.includes]. rewrite (IH H). apply orb_true_r.
Qed.

Lemma includes_app_r (a b p : string) :
  JS.includes b p = true -> JS.includes (a ++ b) p = true.
Proof.
  intros H. induction a as [|c a IH]; [exact H|].
  cbn [append JS.includes]. rewrite IH. apply orb_true_r.
Qed.

Lemma prefix_here (p s : string) : String.prefix p (p ++ s) = true.
Proof.
  induction p as [|c p IH]; [destruct s; reflexivity|].
  cbn [append String.prefix].
  destruct (ascii_dec c c) as [_|Hc]; [exact IH | contradiction].
Qed.

Lemma includes_here (p s : string) : JS.includes (p ++ s) p = true.
Proof.
  destruct (p ++ s)%string eqn:E; cbn [JS.includes];
    rewrite <- E, prefix_here; reflexivity.
Qed.


(** [isValidDomain] is membership in the language of the domain pattern. *)
Lemma isValidDomain_lang (s : string) :
  isValidDomain s = true <-> lang domainBody s.
Proof.
  unfold isValidDomain. rewrite andb_true_iff, negb_true_iff, matches_lang.
  split; [tauto|].
  intros H. split; [apply lang_domainBody_lookahead, H | exact H].
Qed.

Lemma lang_domainBody_alphabet (s : string) :
  lang domainBody s -> allChars domainChar s = true.
Proof.
  intros H. apply lang_domainBody in H as (labels & tld & Hne & Hall & [_ Htld] & ->).
  rewrite allChars_app, allChars_terminated.
  - apply (allChars_weaken letter); [|exact Htld].
    intros c Hc. unfold domainChar, labelChar. unfold letter in Hc.
    apply orb_prop in Hc as [-> | ->]; [reflexivity|].
    rewrite orb_true_r. reflexivity.
  - reflexivity.
  - eapply Forall_impl; [|exact Hall]. intros g [_ Hg].
    apply (allChars_weaken labelChar); [|exact Hg].
    intros c Hc. unfold domainChar. rewrite Hc. reflexivity.
Qed.

(** X16.  [isValidDomain] accepts exactly the strings made of one or more
    labels, each a non-empty run of letters, digits and hyphens followed by
    a dot, and then a top-level domain of two or more letters. *)
Theorem isValidDomain_iff_labels_and_tld (s : string) :
  isValidDomain s = true <->
  exists labels tld, labels <> [] /\ Forall isLabel labels /\ isTld tld
                     /\ s = (terminated "." labels ++ tld)%string.
Proof.
  rewrite isValidDomain_lang. apply lang_domainBody.
Qed.

(** X17.  The look-ahead of the domain pattern never changes the verdict;
    and an accepted domain consists of letters, digits, hyphens and dots
    only, and contains a dot. *)
Theorem isValidDomain_alphabet (s : string) :
  isValidDomain s = matches domainBody s
  /\ (isValidDomain s = true ->
      allChars domainChar s = true /\ JS.includes s "." = true).
Proof.
  split.
  - unfold isValidDomain. destruct (matches domainBody s) eqn:E.
    + apply matches_lang, lang_domainBody_lookahead in E. rewrite E. reflexivity.
    + apply andb_false_r.
  - intros H. unfold isValidDomain in H. apply andb_prop in H as [_ H].
    apply matches_lang in H. split; [apply lang_domainBody_alphabet, H|].
    apply lang_domainBody in H as (labels & tld & Hne & Hall & _ & ->).
    + destruct labels as [|l labels]; [contradiction|].
      cbn [terminated]. rewrite !string_app_assoc.
      apply includes_app_r, includes_here.
Qed.

(** The strings of an address pattern: [n] groups each followed by the
    separator, then a last group. *)
Lemma lang_groups (p : ascii -> bool) (x : ascii) (n m : nat) (s : string) :
  (1 <= m)%nat ->
  lang (Seq (Times n (Seq (Between 1 m (Class p)) (Class (only x))))
            (Between 1 m (Class p))) s <->
  exists groups g, length groups = n /\ Forall (isGroup p 1 m) groups
                   /\ isGroup p 1 m g
                   /\ s = (terminated (String x EmptyString) groups ++ g)%string.
Proof.
  intros Hm. split.
  - intros (s1 & s2 & -> & H1 & H2).
    apply lang_times_terminated in H1 as (groups & Hl & Hall & ->).
    apply (Forall_lang_between p 1 m groups Hm) in Hall.
    apply (lang_between_class p 1 m s2 Hm) in H2.
    exists groups, s2. auto.
  - intros (groups & g & Hl & Hall & Hg & ->).
    exists (terminated (String x EmptyString) groups), g.
    split; [reflexivity|]. split.
    + apply lang_times_terminated. exists groups.
      split; [exact Hl|]. split; [apply (Forall_lang_between p 1 m groups Hm), Hall | reflexivity].
    + apply (lang_between_class p 1 m g Hm), Hg.
Qed.

(** X18.  [isValidIP] accepts exactly the strings made of four groups of one
    to three decimal digits joined by dots, whatever the value of a group,
    and the strings made of eight groups of one to four hexadecimal digits
    joined by colons. *)
Theorem isValidIP_iff_groups (s : string) :
  isValidIP s = true <->
  (exists groups g, length groups = 3%nat /\ Forall (isGroup digit 1 3) groups
                    /\ isGroup digit 1 3 g
                    /\ s = (terminated "." groups ++ g)%string)
  \/ (exists groups g, length groups = 7%nat /\ Forall (isGroup hexDigit 1 4) groups
                       /\ isGroup hexDigit 1 4 g
                       /\ s = (terminated ":" groups ++ g)%string).
Proof.
  unfold isValidIP, ipv4Regex, ipv6Regex.
  rewrite orb_true_iff, !matches_lang.
  rewrite (lang_groups digit "." 3 3 s) by lia.
  rewrite (lang_groups hexDigit ":" 7 4 s) by lia.
  reflexivity.
Qed.

(** Out-of-range groups are accepted and the short form of an IPv6 address
    is rejected, computed. *)
Lemma isValidIP_iff_groups_witness :
  isValidIP "999.999.999.999" = true /\ isValidIP "::1" = false
  /\ isValidIP "2001:db8:0:0:0:0:0:1" = true.
Proof.
  split; [|split; reflexivity].
  apply isValidIP_iff_groups. left.
  exists ["999"; "999"; "999"]%string, "999"%string.
  repeat split; try (cbn; lia).
  repeat constructor; cbn; lia.
Defined.









(** X21.  A generated test subdomain is the base domain under a new first
    label [test-] followed by at most six characters of the random text; it
    passes [isValidDomain] whenever the base domain does and those
    characters are letters, digits or hyphens. *)
Theorem generateTestSubdomain_valid (randomText baseDomain : string) :
  let random := Str.substring randomText 2 8 in
  DnsMore.generateTestSubdomain randomText baseDomain
    = ("test-" ++ random ++ "." ++ baseDomain)%string
  /\ (String.length random <= 6)%nat
  /\ (isValidDomain baseDomain = true ->
      allChars labelChar random = true ->
      isValidDomain (DnsMore.generateTestSubdomain randomText baseDomain) = true).
Proof.
  intros random. split; [reflexivity|]. split.
  - subst random. unfold Str.substring, Str.clampIndex.
    set (len := Z.of_nat (String.length randomText)).
    assert (Hlen : 0 <= len) by lia.
    rewrite !Z.min_l by lia. 
    assert (forall n m s, String.length (String.substring n m s) <= m)%nat as Hsub.
    { induction n as [|n IHn]; intros m s.
      - revert s. induction m as [|m IHm]; intros [|c s]; cbn; try lia.
        specialize (IHm s). lia.
      - destruct s as [|c s]; cbn; [lia | apply IHn]. }
    etransitivity; [apply Hsub|]. lia.
  - intros Hbase Hrandom.
    apply isValidDomain_lang, lang_domainBody in Hbase
      as (labels & tld & Hne & Hall & Htld & ->).
    apply isValidDomain_lang, lang_domainBody.
    exists (("test-" ++ random)%string :: labels), tld.
    split; [discriminate|]. split; [|split; [exact Htld|]].
    + constructor; [|exact Hall]. split; [discriminate|].
      cbn. exact Hrandom.
    + unfold DnsMore.generateTestSubdomain. fold random.
      cbn [terminated]. rewrite !string_app_assoc. reflexivity.
Qed.

(** A random text of eleven characters, computed. *)
Lemma generateTestSubdomain_valid_witness :
  DnsMore.generateTestSubdomain "0.k3x9qa7c2" "example.com" = "test-k3x9qa.example.com"
  /\ isValidDomain (DnsMore.generateTestSubdomain "0.k3x9qa7c2" "example.com") = true.
Proof.
  split; [reflexivity|].
  apply (generateTestSubdomain_valid "0.k3x9qa7c2" "example.com"); reflexivity.
Defined.

End ValidationFacts.

(* ================================================================== *)
(** ** The priority of a mail-exchange record *)
(* ================================================================== *)

Section Priority.

Import Decimal.









End Priority.



(** From 2^53 on the priority is the nearest double, not the number written:
    2^53 + 1 is read as 2^53, and 10^21 is shown in exponent form. *)
Example mx_priority_beyond_2_53 :
  Dns.priority (Dns.toRecord (Examples.answer 15 "9007199254740993 mail.example.com."))
  = Some (JS.Int 9007199254740992)
  /\ LookupView.valueCell
       (Dns.toRecord (Examples.answer 15 "9007199254740993 mail.example.com."))
     = "9007199254740992 9007199254740993 mail.example.com."
  /\ LookupView.valueCell
       (Dns.toRecord (Examples.answer 15 "1000000000000000000000 mail.example.com."))
     = "1e+21 1000000000000000000000 mail.example.com.".
Proof. vm_compute. repeat split. Qed.

(* ================================================================== *)
(** ** The attack-surface tool *)
(* ================================================================== *)


